(** * The file watcher of [file_watcher/scripts/file_watcher.py]

    A shallow embedding of the class [FileManager] and of the Python
    built-ins it calls, followed by the properties of its path derivation,
    its lock guard, its upload and archive steps and its polling loop.

    Strings are Python [str] values restricted to code points below 256,
    a character of Rocq standing for the code point of its number; [\w]
    and [str.lower] are Python's on these code points. *)

From Stdlib Require Import String Ascii List Bool Arith Lia.
Import ListNotations.

Local Open Scope string_scope.
Local Open Scope list_scope.

(** ** Python strings *)

Module Str.

(** Truth value of a [str]: non-empty. *)
Definition truthy (s : string) : bool :=
  match s with
  | EmptyString => false
  | String _ _ => true
  end.

Definition char (s : string) : ascii :=
  match s with
  | String c _ => c
  | EmptyString => Ascii.zero
  end.

Definition slash : ascii := char "/".
Definition dot : ascii := char ".".
Definition newline : ascii := ascii_of_nat 10.

(** [s[n:]] and [s[:n]] for [0 <= n]. *)
Fixpoint drop (n : nat) (s : string) : string :=
  match n, s with
  | S k, String _ s' => drop k s'
  | _, _ => s
  end.

Fixpoint take (n : nat) (s : string) : string :=
  match n, s with
  | S k, String c s' => String c (take k s')
  | _, _ => EmptyString
  end.

Definition startswith (s p : string) : bool := String.prefix p s.

Definition endswith (s suf : string) : bool :=
  Nat.leb (String.length suf) (String.length s)
  && String.eqb (drop (String.length s - String.length suf) s) suf.

(** [sub in s]. *)
Fixpoint contains (sub s : string) : bool :=
  String.prefix sub s
  || match s with
     | EmptyString => false
     | String _ s' => contains sub s'
     end.

(** [s.replace(old, new)] for a non-empty [old]: the occurrences are
    taken from the left and do not overlap.  [skip] counts the characters
    of the occurrence under replacement that are still to be dropped. *)
Fixpoint replace_from (old new : string) (skip : nat) (s : string) : string :=
  match s with
  | EmptyString => EmptyString
  | String c s' =>
      match skip with
      | S k => replace_from old new k s'
      | O =>
          if String.prefix old s
          then new ++ replace_from old new (String.length old - 1) s'
          else String c (replace_from old new 0 s')
      end
  end.

(** With an empty [old], Python puts [new] before every character and at
    the end. *)
Fixpoint intersperse (new s : string) : string :=
  match s with
  | EmptyString => new
  | String c s' => new ++ String c (intersperse new s')
  end.

Definition replace (s old new : string) : string :=
  match old with
  | EmptyString => intersperse new s
  | String _ _ => replace_from old new 0 s
  end.

(** [s.split(sep)] for a one-character separator; never the empty list. *)
Fixpoint split (sep : ascii) (s : string) : list string :=
  match s with
  | EmptyString => [EmptyString]
  | String c s' =>
      match split sep s' with
      | [] => [String c EmptyString]
      | h :: t =>
          if Ascii.eqb c sep then EmptyString :: h :: t
          else String c h :: t
      end
  end.

(** ["/".join(l)]. *)
Definition join (sep : string) (l : list string) : string :=
  String.concat sep l.

(** [s.rfind(c)], [None] standing for [-1]. *)
Fixpoint rfind (c : ascii) (s : string) : option nat :=
  match s with
  | EmptyString => None
  | String d s' =>
      match rfind c s' with
      | Some k => Some (S k)
      | None => if Ascii.eqb d c then Some 0 else None
      end
  end.

(** [s.rfind(c) + 1]. *)
Definition after_rfind (c : ascii) (s : string) : nat :=
  match rfind c s with
  | Some k => S k
  | None => 0
  end.

Fixpoint all_char (c : ascii) (s : string) : bool :=
  match s with
  | EmptyString => true
  | String d s' => Ascii.eqb d c && all_char c s'
  end.

(** [s.rstrip(c)]. *)
Fixpoint rstrip (c : ascii) (s : string) : string :=
  match s with
  | EmptyString => EmptyString
  | String d s' =>
      match rstrip c s' with
      | EmptyString => if Ascii.eqb d c then EmptyString else String d EmptyString
      | r => String d r
      end
  end.

(** [s.lower()]: below 256 the upper case letters are [A] to [Z] and the
    code points 192 to 222 but 215 (the multiplication sign), each 32 below
    its lower case letter. *)
Definition lower_char (c : ascii) : ascii :=
  let n := nat_of_ascii c in
  if (Nat.leb 65 n && Nat.leb n 90)
     || (Nat.leb 192 n && Nat.leb n 214)
     || (Nat.leb 216 n && Nat.leb n 222)
  then ascii_of_nat (n + 32) else c.

Fixpoint lower (s : string) : string :=
  match s with
  | EmptyString => EmptyString
  | String c s' => String (lower_char c) (lower s')
  end.

End Str.

(** ** [posixpath] *)

Module OsPath.

(** [os.path.basename(p)]: [p[p.rfind('/') + 1:]]. *)
Definition basename (p : string) : string :=
  Str.drop (Str.after_rfind Str.slash p) p.

(** [os.path.dirname(p)]: the head [p[:p.rfind('/') + 1]], without its
    trailing slashes unless it is made of slashes only. *)
Definition dirname (p : string) : string :=
  let head := Str.take (Str.after_rfind Str.slash p) p in
  if Str.truthy head && negb (Str.all_char Str.slash head)
  then Str.rstrip Str.slash head
  else head.

(** [os.path.join(a, b)]. *)
Definition join (a b : string) : string :=
  if Str.startswith b "/" then b
  else if negb (Str.truthy a) || Str.endswith a "/" then a ++ b
  else a ++ "/" ++ b.

End OsPath.

(** ** The fragment of [re] the source uses

    A pattern is a sequence of items: a literal character, a greedy [+] over
    a character class, or [$].  Matching backtracks in Python's order: a [+]
    first takes as many characters as it can. *)

Module Re.

Inductive cclass : Type :=
| AnyChar    (* [.]: every character but the line feed *)
| WordChar.  (* [\w] *)

Inductive item : Type :=
| Lit (c : ascii)
| Plus (k : cclass)
| Eol.

Definition pattern : Type := list item.

(** [\w] on a [str] pattern: the underscore and what [str.isalnum] takes.
    Below 256 these are the digits, the letters [A] to [Z] and [a] to [z],
    and of the upper half the code points 170, 178, 179, 181, 185, 186,
    188 to 190 (ordinal indicators, superscripts, micro sign, fractions)
    and the letters 192 to 255 but 215 and 247 (the multiplication and
    division signs). *)
Definition is_word (c : ascii) : bool :=
  let n := nat_of_ascii c in
  (Nat.leb 48 n && Nat.leb n 57) || (Nat.leb 65 n && Nat.leb n 90)
  || (Nat.leb 97 n && Nat.leb n 122) || Nat.eqb n 95
  || Nat.eqb n 170 || (Nat.leb 178 n && Nat.leb n 179) || Nat.eqb n 181
  || (Nat.leb 185 n && Nat.leb n 186) || (Nat.leb 188 n && Nat.leb n 190)
  || (Nat.leb 192 n && Nat.leb n 214) || (Nat.leb 216 n && Nat.leb n 246)
  || (Nat.leb 248 n && Nat.leb n 255).

Definition in_class (k : cclass) (c : ascii) : bool :=
  match k with
  | AnyChar => negb (Ascii.eqb c Str.newline)
  | WordChar => is_word c
  end.

(** [$]: at the end, or before a line feed that ends the string. *)
Definition at_eol (s : string) : bool :=
  match s with
  | EmptyString => true
  | String c EmptyString => Ascii.eqb c Str.newline
  | _ => false
  end.

(** One or more characters of the class, the longest run first, then the
    continuation [k] on what is left. *)
Fixpoint plus_greedy (cl : cclass) (k : string -> option string)
         (s : string) : option string :=
  match s with
  | EmptyString => None
  | String c s' =>
      if in_class cl c then
        match plus_greedy cl k s' with
        | Some r => Some r
        | None => k s'
        end
      else None
  end.

(** The match of [p] that starts at the head of [s]: what is left of [s]
    after it. *)
Fixpoint match_here (p : pattern) (s : string) : option string :=
  match p with
  | [] => Some s
  | Lit c :: p' =>
      match s with
      | String d s' => if Ascii.eqb d c then match_here p' s' else None
      | EmptyString => None
      end
  | Plus cl :: p' => plus_greedy cl (match_here p') s
  | Eol :: p' => if at_eol s then match_here p' s else None
  end.

(** [re.match(p, s)] as a truth value. *)
Definition matches (p : pattern) (s : string) : bool :=
  match match_here p s with
  | Some _ => true
  | None => false
  end.

(** [re.findall(p, s)] for a pattern without groups whose matches are
    never empty: the matches from the left, not overlapping. *)
Fixpoint findall_from (p : pattern) (skip : nat) (s : string) : list string :=
  match s with
  | EmptyString => []
  | String _ s' =>
      match skip with
      | S k => findall_from p k s'
      | O =>
          match match_here p s with
          | Some rest =>
              let n := String.length s - String.length rest in
              Str.take n s :: findall_from p (n - 1) s'
          | None => findall_from p 0 s'
          end
      end
  end.

Definition findall (p : pattern) (s : string) : list string :=
  findall_from p 0 s.

(** [re.sub(p, repl, s)], under the same restriction. *)
Fixpoint sub_from (p : pattern) (repl : string) (skip : nat) (s : string)
  : string :=
  match s with
  | EmptyString => EmptyString
  | String c s' =>
      match skip with
      | S k => sub_from p repl k s'
      | O =>
          match match_here p s with
          | Some rest =>
              let n := String.length s - String.length rest in
              repl ++ sub_from p repl (n - 1) s'
          | None => String c (sub_from p repl 0 s')
          end
      end
  end.

Definition sub (p : pattern) (repl s : string) : string :=
  sub_from p repl 0 s.

End Re.

(** ** Exceptions, the world and the monad of effects *)

(** The exception classes that occur; all of them derive from [Exception]. *)
Inductive exn : Type :=
| AttributeError
| TypeError
| ValueError
| RecursionError
| BlockingIOError
| InterruptedError
| FileNotFoundError
| PermissionError
| OSError
| ShutilError
| GoogleAPIError.

Inductive result (A : Type) : Type :=
| Ret (a : A)
| Raise (e : exn).

Arguments Ret {A} a.
Arguments Raise {A} e.

Inductive level : Type := DEBUG | INFO | WARNING | ERROR | EXCEPTION.

(** A value interpolated in a log message. *)
Inductive arg : Type :=
| AStr (s : string)
| AOpt (s : option string)
| AExn (e : exn).

(** What the process does to its surroundings, in order.  A [Log] holds the
    text of the f-string of the source and the values of its fields;
    [logger.exception(e)] is [Log EXCEPTION "{e}" [AExn e]]. *)
Inductive event : Type :=
| Log (l : level) (fmt : string) (args : list arg)
| Sleep (seconds : nat)
| Printed (fmt : string) (args : list arg)
| Uploaded (key : string) (name : string)
| Makedirs (path : string)
| Moved (src dst : string).

(** An open file object: its descriptor and its [name]. *)
Record file : Type := mkFile { fileno : nat; name : string }.

Record World : Type := mkWorld {
  (* the local file system: regular files and their sizes *)
  files : list (string * nat);
  (* what [os.walk] yields from a top directory: roots with their files *)
  walk : string -> list (string * list string);
  (* the failures of the operating system and of the object store *)
  open_error : string -> option exn;
  locked_elsewhere : string -> bool;
  makedirs_error : string -> option exn;
  (* the directories of the file system, as [os.path.isdir] answers when
     [shutil.move] asks: those [os.makedirs] makes are among them *)
  is_dir : string -> bool;
  (* [os.rename] raises an [OSError] *)
  rename_fails : string -> string -> bool;
  (* [shutil.copy2] raises, with the size of what it left at the
     destination, if it left anything *)
  copy_error : string -> string -> option (exn * option nat);
  unlink_error : string -> option exn;
  (* the constructors of the storage client and of the logging client
     raise *)
  storage_client_error : string -> string -> option exn;
  logging_client_error : string -> option exn;
  exists_error : string -> option exn;
  upload_error : string -> option exn;
  (* descriptors: those the code opened and did not close, and those on
     which it holds a lock; what the interpreter reclaims is not modelled *)
  next_fd : nat;
  open_files : list file;
  flocks : list nat;
  (* the bucket: the keys of its blobs *)
  blobs : list string;
  (* the random identifiers [uuid.uuid4().hex] returns, and how many were drawn *)
  uuid_hex : nat -> string;
  uuid_drawn : nat;
  trace : list event
}.

Definition M (A : Type) : Type := World -> result A * World.

Definition ret {A} (a : A) : M A := fun w => (Ret a, w).

Definition raise {A} (e : exn) : M A := fun w => (Raise e, w).

Definition bind {A B} (m : M A) (k : A -> M B) : M B :=
  fun w =>
    match m w with
    | (Ret a, w') => k a w'
    | (Raise e, w') => (Raise e, w')
    end.

Notation "x <- m ;; k" := (bind m (fun x => k))
  (at level 61, m at next level, right associativity).
Notation "m ;; k" := (bind m (fun _ => k))
  (at level 61, right associativity).

(** [try: m  except Exception as e: h e]. *)
Definition try_except {A} (m : M A) (h : exn -> M A) : M A :=
  fun w =>
    match m w with
    | (Ret a, w') => (Ret a, w')
    | (Raise e, w') => h e w'
    end.

(** [try: m  finally: fin]: an exception of [fin] replaces the outcome of
    [m]. *)
Definition try_finally {A} (m : M A) (fin : M unit) : M A :=
  fun w =>
    match m w with
    | (r, w') =>
        match fin w' with
        | (Ret _, w'') => (r, w'')
        | (Raise e, w'') => (Raise e, w'')
        end
    end.

Definition set_trace (t : list event) (w : World) : World :=
  mkWorld (files w) (walk w) (open_error w) (locked_elsewhere w)
          (makedirs_error w) (is_dir w) (rename_fails w) (copy_error w) (unlink_error w)
          (storage_client_error w) (logging_client_error w)
          (exists_error w) (upload_error w)
          (next_fd w) (open_files w) (flocks w) (blobs w)
          (uuid_hex w) (uuid_drawn w) t.

Definition emit (e : event) : M unit :=
  fun w => (Ret tt, set_trace (trace w ++ [e]) w).

Definition log (l : level) (fmt : string) (args : list arg) : M unit :=
  emit (Log l fmt args).

Definition log_exception (e : exn) : M unit :=
  log EXCEPTION "{e}" [AExn e].

(** *** The operating system *)

Fixpoint lookup (p : string) (fs : list (string * nat)) : option nat :=
  match fs with
  | [] => None
  | (q, n) :: fs' => if String.eqb p q then Some n else lookup p fs'
  end.

Fixpoint remove (p : string) (fs : list (string * nat)) : list (string * nat) :=
  match fs with
  | [] => []
  | (q, n) :: fs' =>
      if String.eqb p q then remove p fs' else (q, n) :: remove p fs'
  end.

(** [open(path, "rb+")]. *)
Definition py_open (path : string) : M file :=
  fun w =>
    match open_error w path with
    | Some e => (Raise e, w)
    | None =>
        match lookup path (files w) with
        | None => (Raise FileNotFoundError, w)
        | Some _ =>
            let fd := mkFile (next_fd w) path in
            (Ret fd,
             mkWorld (files w) (walk w) (open_error w) (locked_elsewhere w)
                     (makedirs_error w) (is_dir w) (rename_fails w) (copy_error w) (unlink_error w)
          (storage_client_error w) (logging_client_error w)
          (exists_error w)
                     (upload_error w)
                     (S (next_fd w)) (fd :: open_files w) (flocks w) (blobs w)
                     (uuid_hex w) (uuid_drawn w) (trace w))
        end
    end.

Definition set_descriptors (o : list file) (l : list nat) (w : World) : World :=
  mkWorld (files w) (walk w) (open_error w) (locked_elsewhere w)
          (makedirs_error w) (is_dir w) (rename_fails w) (copy_error w) (unlink_error w)
          (storage_client_error w) (logging_client_error w)
          (exists_error w) (upload_error w)
          (next_fd w) o l (blobs w) (uuid_hex w) (uuid_drawn w) (trace w).

(** [fcntl.flock(fd, fcntl.LOCK_EX | fcntl.LOCK_NB)]. *)
Definition flock_ex_nb (fd : file) : M unit :=
  fun w =>
    if locked_elsewhere w (name fd) then (Raise BlockingIOError, w)
    else (Ret tt, set_descriptors (open_files w) (fileno fd :: flocks w) w).

(** [fd.close()]; closing a descriptor drops its lock. *)
Definition py_close (fd : file) : M unit :=
  fun w =>
    (Ret tt,
     set_descriptors
       (filter (fun f => negb (Nat.eqb (fileno f) (fileno fd))) (open_files w))
       (filter (fun n => negb (Nat.eqb n (fileno fd))) (flocks w))
       w).

(** [fd.fcntl]: a file object has no attribute of that name. *)
Definition getattr_fcntl (fd : file) : M unit := raise AttributeError.

(** [os.stat(path).st_size]. *)
Definition stat_size (path : string) : M nat :=
  fun w =>
    match lookup path (files w) with
    | Some n => (Ret n, w)
    | None => (Raise FileNotFoundError, w)
    end.

(** [os.makedirs(path, exist_ok=True)]; directories are not kept. *)
Definition makedirs (path : string) : M unit :=
  fun w =>
    match makedirs_error w path with
    | Some e => (Raise e, w)
    | None => emit (Makedirs path) w
    end.

Definition set_files (fs : list (string * nat)) (w : World) : World :=
  mkWorld fs (walk w) (open_error w) (locked_elsewhere w)
          (makedirs_error w) (is_dir w) (rename_fails w) (copy_error w) (unlink_error w)
          (storage_client_error w) (logging_client_error w)
          (exists_error w) (upload_error w)
          (next_fd w) (open_files w) (flocks w) (blobs w)
          (uuid_hex w) (uuid_drawn w) (trace w).

(** [os.path.exists(p)]. *)
Definition path_exists (w : World) (p : string) : bool :=
  match lookup p (files w) with
  | Some _ => true
  | None => is_dir w p
  end.

(** [shutil._basename(p)]: the base name of [p] without its trailing
    slashes. *)
Definition shutil_basename (p : string) : string :=
  OsPath.basename (Str.rstrip Str.slash p).

(** Where [shutil.move(src, dst)] puts the source: in [dst] when that is a
    directory, at [dst] otherwise. *)
Definition real_dst (w : World) (src dst : string) : string :=
  if is_dir w dst then OsPath.join dst (shutil_basename src) else dst.

(** [shutil.move(src, dst)] for a source that is a regular file or is not
    there (directories and symbolic links as sources are not modelled).
    Into a directory it refuses to replace what exists; it renames, and
    when [os.rename] raises an [OSError] it copies the file and then
    unlinks the source: a copy that fails can leave a file at the
    destination, and an unlink that fails leaves both. *)
Definition shutil_move (src dst : string) : M unit :=
  fun w =>
    let real := real_dst w src dst in
    if is_dir w dst && path_exists w real then (Raise ShutilError, w)
    else
      match lookup src (files w) with
      | None => (Raise FileNotFoundError, w)
      | Some n =>
          if rename_fails w src real then
            match copy_error w src real with
            | Some (e, Some k) => (Raise e, set_files ((real, k) :: files w) w)
            | Some (e, None) => (Raise e, w)
            | None =>
                match unlink_error w src with
                | Some e => (Raise e, set_files ((real, n) :: files w) w)
                | None =>
                    emit (Moved src real)
                         (set_files ((real, n) :: remove src (files w)) w)
                end
            end
          else
            emit (Moved src real)
                 (set_files ((real, n) :: remove src (files w)) w)
      end.

(** [time.sleep(seconds)]. *)
Definition time_sleep (seconds : nat) : M unit := emit (Sleep seconds).

(** [uuid.uuid4().hex]. *)
Definition uuid4_hex : M string :=
  fun w =>
    (Ret (uuid_hex w (uuid_drawn w)),
     mkWorld (files w) (walk w) (open_error w) (locked_elsewhere w)
             (makedirs_error w) (is_dir w) (rename_fails w) (copy_error w) (unlink_error w)
          (storage_client_error w) (logging_client_error w)
          (exists_error w) (upload_error w)
             (next_fd w) (open_files w) (flocks w) (blobs w)
             (uuid_hex w) (S (uuid_drawn w)) (trace w)).

(** *** The object store *)

(** [storage.Blob(bucket, name).exists(client)]: the client refuses a blob
    without a name with a [ValueError]. *)
Definition blob_exists (key : option string) : M bool :=
  fun w =>
    match key with
    | None | Some EmptyString => (Raise ValueError, w)
    | Some k =>
        match exists_error w k with
        | Some e => (Raise e, w)
        | None => (Ret (existsb (String.eqb k) (blobs w)), w)
        end
    end.

(** [bucket.blob(key).upload_from_file(fd)]. *)
Definition blob_upload (key : option string) (fd : file) : M unit :=
  fun w =>
    match key with
    | None | Some EmptyString => (Raise ValueError, w)
    | Some k =>
        match upload_error w k with
        | Some e => (Raise e, w)
        | None =>
            emit (Uploaded k (name fd))
                 (mkWorld (files w) (walk w) (open_error w) (locked_elsewhere w)
                          (makedirs_error w) (is_dir w) (rename_fails w) (copy_error w) (unlink_error w)
          (storage_client_error w) (logging_client_error w)
          (exists_error w)
                          (upload_error w)
                          (next_fd w) (open_files w) (flocks w) (k :: blobs w)
                          (uuid_hex w) (uuid_drawn w) (trace w))
        end
    end.

(** ** The class [FileManager] *)

(** [input_path]. *)
Definition input_path (source_path : string) : bool :=
  if Str.contains "file_type" (Str.lower source_path) then true else false.

(** The attributes of [self] that the methods read; the storage client and
    the logger are in the world. *)
Record FileManager : Type := mkFileManager {
  src_path : string;
  archive_path : string;
  target_bucket : string;
  sleep_timer_s : nat;
  file_type : option string
}.

(** [FileManager.__init__]. *)
Definition init (src target_bucket archive : string) (file_type : option string)
  : FileManager :=
  mkFileManager (OsPath.join src "") (OsPath.join archive "") target_bucket 1
                file_type.

Module Patterns.
Import Re.
(** [r"\..+\.gz"] *)
Definition gz_r : pattern :=
  [Lit Str.dot; Plus AnyChar; Lit Str.dot; Lit (Str.char "g"); Lit (Str.char "z")].
(** [r"\.\w+$"] *)
Definition other_r : pattern := [Lit Str.dot; Plus WordChar; Eol].
(** [r".+\..+$"] *)
Definition filter_r : pattern := [Plus AnyChar; Lit Str.dot; Plus AnyChar; Eol].
End Patterns.

Section Methods.

Variable self : FileManager.

Definition _extract (file_path : string) (extr_f : list string -> string)
           (gt_l : nat) : option string :=
  if negb (Str.truthy file_path) then None
  else
    let ps := Str.split Str.slash (Str.replace file_path (src_path self) "") in
    if negb (Nat.eqb (List.length ps) 0) && Nat.ltb gt_l (List.length ps) then
      let p := extr_f ps in
      if Str.truthy p then Some p else None
    else None.

Definition _extract_org_path (file_path : string) : M (option string) :=
  match file_type self with
  | Some ft =>
      if Str.truthy file_path then
        log DEBUG
            "self.file_type is not None, returning file_type of extracting it from {file_path}"
            [AStr file_path];;
        ret (Some ft)
      else ret (_extract file_path (fun s => hd EmptyString s) 1)
  | None => ret (_extract file_path (fun s => hd EmptyString s) 1)
  end.

Definition _extract_filepath_from_org (file_path : string) : option string :=
  match _extract file_path (fun s => Str.join "/" (tl s)) 0 with
  | Some (String c r) => Some (String c r)
  | _ => _extract file_path (fun s => Str.join "/" s) 0
  end.

Definition _replace_extensions (file_name : string) : option (string * string) :=
  if negb (Str.truthy file_name) then None
  else
    match Re.findall Patterns.gz_r file_name with
    | m0 :: _ => Some (Re.sub Patterns.gz_r "" file_name, m0)
    | [] =>
        if Str.endswith file_name ".gz" then
          Some (Str.take (String.length file_name - 3) file_name, ".gz")
        else
          match Re.findall Patterns.other_r file_name with
          | m0 :: _ => Some (Re.sub Patterns.other_r "" file_name, m0)
          | [] => None
          end
    end.

(** Unpacking [None] into [name_wo_ext, ext] is a [TypeError]. *)
Definition _add_uuid_to_filename (file_path : option string)
  : M (option string) :=
  match file_path with
  | None | Some EmptyString => ret None
  | Some fp =>
      generated_uuid <- uuid4_hex;;
      let file_name := OsPath.basename fp in
      let new_file_path := OsPath.dirname file_name in
      match _replace_extensions new_file_path with
      | None => raise TypeError
      | Some (name_wo_ext, ext) =>
          ret (Some (new_file_path ++ "/" ++ name_wo_ext ++ "_"
                     ++ generated_uuid ++ "-" ++ ext)%string)
      end
  end.

(** [org + "/" + None] is a [TypeError]. *)
Definition _build_tgt_path (file_path : string) : M (option string) :=
  org <- _extract_org_path file_path;;
  match org with
  | None | Some EmptyString =>
      log WARNING "Cannot find the organisation for {file_path}"
          [AStr file_path];;
      ret (_extract_filepath_from_org file_path)
  | Some o =>
      match _extract_filepath_from_org file_path with
      | Some r => ret (Some (o ++ "/" ++ r)%string)
      | None => raise TypeError
      end
  end.

Definition _gcs_file_exists (prefix : option string) : M bool :=
  blob_exists prefix.

Definition falsy (s : option string) : bool :=
  match s with
  | None | Some EmptyString => true
  | Some _ => false
  end.

(** [upload_to_gcs(fd, object, tgt_path=None)].  [depth] is the number of
    frames left before Python's recursion limit. *)
Fixpoint upload_to_gcs (depth : nat) (fd : file) (object : option string)
         (tgt_path : option string) : M bool :=
  match depth with
  | O => raise RecursionError
  | S d =>
      let current_path := name fd in
      tgt_path <- (if falsy tgt_path then _build_tgt_path current_path
                   else ret tgt_path);;
      log DEBUG "Checking if {tgt_path} exists on {self.target_bucket}"
          [AOpt tgt_path; AStr (target_bucket self)];;
      found <- _gcs_file_exists tgt_path;;
      if found then
        log WARNING "{tgt_path} exists on {self.target_bucket}"
            [AOpt tgt_path; AStr (target_bucket self)];;
        renamed <- _add_uuid_to_filename tgt_path;;
        upload_to_gcs d fd renamed None
      else
        try_except
          (log DEBUG "Uploading {current_path} to {tgt_path}"
               [AStr current_path; AOpt tgt_path];;
           blob_upload tgt_path fd;;
           ret true)
          (fun e =>
             log_exception e;;
             log ERROR
                 "Issue with the file upload from {current_path} to {tgt_path}: {e}"
                 [AStr current_path; AOpt tgt_path; AExn e];;
             ret false)
  end.

(** [os.path.dirname(None)] is a [TypeError]. *)
Definition dirname_of (p : option string) : M string :=
  match p with
  | Some s => ret (OsPath.dirname s)
  | None => raise TypeError
  end.

Definition archive_file (file_path : string) : M (option string) :=
  archive_suffix <- _build_tgt_path file_path;;
  suffix_dir <- dirname_of archive_suffix;;
  let tgt_archive_path := OsPath.join (archive_path self) suffix_dir in
  makedirs tgt_archive_path;;
  let tgt_archive_path :=
    OsPath.join tgt_archive_path (OsPath.basename file_path) in
  try_except
    (shutil_move file_path tgt_archive_path;;
     log INFO "File successfully archive from {file_path} to {tgt_archive_path}"
         [AStr file_path; AStr tgt_archive_path];;
     ret (Some tgt_archive_path))
    (fun e =>
       log ERROR "Issue with file archival process for {file_path}: {e}"
           [AStr file_path; AExn e];;
       ret None).

(** The three lines every handler of [_file_lock] logs. *)
Definition log_deferred (file_path : string) (e : exn) : M unit :=
  log_exception e;;
  log ERROR "Cannot acquire lock for {file_path}: {e}"
      [AStr file_path; AExn e];;
  log INFO "File will be processed later" [].

(** [fcntl.flock] called with one argument. *)
Definition flock_one_argument : M unit := raise TypeError.

Definition _file_lock (file_path : string) (func : file -> M unit)
  : M (option exn) :=
  fun w =>
    match py_open file_path w with
    | (Raise e, w1) => (log_deferred file_path e;; ret (Some e)) w1
    | (Ret fd, w1) =>
        try_finally
          (try_except
             (flock_ex_nb fd;; func fd;; ret None)
             (fun e =>
                match e with
                | BlockingIOError => log_deferred file_path e;; ret (Some e)
                | _ => log_deferred file_path e;; ret (Some e)
                end))
          (* fcntl.flock(fd.fcntl.LOCK_UN); fd.close() *)
          (getattr_fcntl fd;; flock_one_argument;; py_close fd)
          w1
    end.

(** [_handle_event], with what the call [self.upload_to_gcs(fd)] does as
    a parameter. *)
Definition _handle_event_via (upload : file -> M bool) (fd : file) : M unit :=
  let event_path := name fd in
  returned <- try_except
                (size <- stat_size event_path;;
                 if Nat.eqb size 0 then
                   log WARNING "Empty file {event_path}" [AStr event_path];;
                   ret true
                 else ret false)
                (fun e => log ERROR "{e}" [AExn e];; ret true);;
  if returned then ret tt
  else if Str.contains (archive_path self) event_path then
    log WARNING "Ignoring archival events" []
  else if negb (input_path event_path) then
    log WARNING "Invalid path" []
  else
    log INFO "Uploading to GCS {event_path}" [AStr event_path];;
    is_uploaded <- upload fd;;
    if is_uploaded then
      log INFO "Archiving {event_path} to {self.archive_path}"
          [AStr event_path; AStr (archive_path self)];;
      archive_file event_path;;
      ret tt
    else
      log ERROR "Cannot archive, upload failed" [].

(** [self.upload_to_gcs(fd)]: the parameter [object] has no default, so
    the call is a [TypeError] and the body does not run. *)
Definition upload_to_gcs_fd_only (fd : file) : M bool := raise TypeError.

Definition _handle_event (fd : file) : M unit :=
  _handle_event_via upload_to_gcs_fd_only fd.

Definition handle_event (event_path : string) : M (option exn) :=
  _file_lock event_path _handle_event.

Definition _filter_filename (file_path : string) : bool :=
  Str.truthy file_path
  && Re.matches Patterns.filter_r file_path
  && negb (Str.contains (archive_path self) file_path)
  && Str.startswith file_path ".".

Definition os_walk (top : string) : M (list (string * list string)) :=
  fun w => (Ret (walk w top), w).

Definition backslash : string := String (ascii_of_nat 92) EmptyString.

Definition file_list_of (tree : list (string * list string)) : list string :=
  flat_map
    (fun '(root, filenames) =>
       map (fun filename =>
              (Str.replace root backslash "/" ++ "/" ++ filename)%string)
           filenames)
    tree.

Fixpoint for_each {A} (l : list A) (body : A -> M unit) : M unit :=
  match l with
  | [] => ret tt
  | x :: l' => body x;; for_each l' body
  end.

(** The generator [_process_all_files]; [consume] is the body of the loop
    that receives each value it yields. *)
Definition _process_all_files (consume : option exn -> M unit) : M unit :=
  tree <- os_walk (src_path self);;
  for_each (file_list_of tree)
           (fun file_path =>
              if _filter_filename file_path then
                e <- handle_event file_path;;
                consume e
              else ret tt).

Definition __ec__ : M unit := ret tt.

(** The [for] of [start]: every value the generator yields is logged
    when it is an exception. *)
Definition scan : M unit :=
  _process_all_files
    (fun e =>
       match e with
       | Some e => log_exception e
       | None => ret tt
       end).

(** The body of the [try] of [start]: one scan tick. *)
Definition tick : M unit :=
  scan;;
  time_sleep (sleep_timer_s self);;
  __ec__.

Inductive loop : Type := Running | Broken.

(** [start], for a number of passes of its [while True]. *)
Fixpoint start (passes : nat) : M loop :=
  match passes with
  | O => ret Running
  | S n =>
      fun w =>
        match tick w with
        | (Ret _, w') => start n w'
        | (Raise InterruptedError, w') => (Ret Broken, w')
        | (Raise e, w') => (log_exception e;; start n) w'
        end
  end.

End Methods.

(** ** The logger, the constructor and [main] *)

(** [google.cloud.logging.Client(project=logging_project)]. *)
Definition logging_client (logging_project : string) : M unit :=
  fun w =>
    match logging_client_error w logging_project with
    | Some e => (Raise e, w)
    | None => (Ret tt, w)
    end.

(** [logger.get_logger].  After [import logging,os], the line
    [from google.cloud import logging] binds the name [logging] to the
    package [google.cloud.logging]: it has the [Client] and no [getLogger],
    so the third statement raises [AttributeError] and the rest of the
    function does not run. *)
Definition get_logger (logging_project name : string) : M unit :=
  emit (Printed "!!! get_logger(): Configuring logging project for: {logging_project}"
                [AStr logging_project]);;
  logging_client logging_project;;
  raise AttributeError.

(** [_build_gcs_client]:
    [storage.Client.from_service_account_json(sva_key_path)] and
    [client.bucket(target_bucket)]. *)
Definition _build_gcs_client (target_bucket sva_key_path : string) : M unit :=
  fun w =>
    match storage_client_error w sva_key_path target_bucket with
    | Some e => (Raise e, w)
    | None => (Ret tt, w)
    end.

(** [FileManager.__init__]: [init] gives the attributes it assigns. *)
Definition __init__ (src_path target_bucket archive_path sva_key_path
                       logging_project : string) (file_type : option string)
  : M FileManager :=
  _build_gcs_client target_bucket sva_key_path;;
  get_logger logging_project "file_watcher";;
  ret (init src_path target_bucket archive_path file_type).

Definition os_path_exists (p : string) : M bool :=
  fun w => (Ret (path_exists w p), w).

(** [main], with the number of passes given to the loop of [start]. *)
Definition main (passes : nat)
           (src_path target_bucket archive_path sva_key_path
              logging_project : string) (file_type : option string)
  : M loop :=
  fm <- __init__ src_path target_bucket archive_path sva_key_path
                 logging_project file_type;;
  src_found <- os_path_exists src_path;;
  if negb src_found then raise FileNotFoundError
  else
    sva_found <- os_path_exists sva_key_path;;
    if negb sva_found then raise FileNotFoundError
    else start fm passes.

(** ** Vocabulary of the statements *)

(** No character of [s] is [c]. *)
Fixpoint free_of (c : ascii) (s : string) : bool :=
  match s with
  | EmptyString => true
  | String d s' => negb (Ascii.eqb d c) && free_of c s'
  end.

(** What follows the [.+] of [gz_r]. *)
Definition gz_tail : Re.pattern :=
  [Re.Lit Str.dot; Re.Lit (Str.char "g"); Re.Lit (Str.char "z")].

(** The path relative to the source root, as [_extract] computes it, and
    its segments. *)
Definition relative (self : FileManager) (file_path : string) : string :=
  Str.replace file_path (src_path self) "".

Definition segments (self : FileManager) (file_path : string) : list string :=
  Str.split Str.slash (relative self file_path).

(** A string as the methods return it: [None] for the empty one. *)
Definition nonempty (s : string) : option string :=
  if Str.truthy s then Some s else None.

(** The sleeps of a trace. *)
Definition is_sleep (e : event) : bool :=
  match e with
  | Sleep _ => true
  | _ => false
  end.

Definition sleeps (t : list event) : list event := filter is_sleep t.

Definition slept (w : World) : list event := sleeps (trace w).

(** A world where nothing fails: the files given, no descriptor open, the
    blobs given, and [os.walk] yielding [tree] from every top. *)
Definition calm (fs : list (string * nat)) (tree : list (string * list string))
           (keys : list string) : World :=
  mkWorld fs (fun _ => tree)
          (fun _ => None) (fun _ => false) (fun _ => None)
          (fun _ => false) (fun _ _ => false) (fun _ _ => None) (fun _ => None)
          (fun _ _ => None) (fun _ => None)
          (fun _ => None) (fun _ => None)
          3 [] [] keys (fun _ => "0123456789abcdef0123456789abcdef") 0 [].

(** The same world with every [os.makedirs] failing, and with every file
    locked by another process. *)
Definition makedirs_failing (e : exn) (w : World) : World :=
  mkWorld (files w) (walk w) (open_error w) (locked_elsewhere w)
          (fun _ => Some e) (is_dir w) (rename_fails w) (copy_error w) (unlink_error w)
          (storage_client_error w) (logging_client_error w)
          (exists_error w) (upload_error w)
          (next_fd w) (open_files w) (flocks w) (blobs w)
          (uuid_hex w) (uuid_drawn w) (trace w).

Definition locked_by_another (w : World) : World :=
  mkWorld (files w) (walk w) (open_error w) (fun _ => true)
          (makedirs_error w) (is_dir w) (rename_fails w) (copy_error w) (unlink_error w)
          (storage_client_error w) (logging_client_error w)
          (exists_error w) (upload_error w)
          (next_fd w) (open_files w) (flocks w) (blobs w)
          (uuid_hex w) (uuid_drawn w) (trace w).

(** The same world with [d] a directory, and with every [os.rename] failing
    as across devices and every copy raising [e], leaving a file of the
    size [left] if any. *)
Definition with_directory (d : string) (w : World) : World :=
  mkWorld (files w) (walk w) (open_error w) (locked_elsewhere w)
          (makedirs_error w)
          (fun p => String.eqb p d || is_dir w p) (rename_fails w)
          (copy_error w) (unlink_error w)
          (storage_client_error w) (logging_client_error w)
          (exists_error w) (upload_error w)
          (next_fd w) (open_files w) (flocks w) (blobs w)
          (uuid_hex w) (uuid_drawn w) (trace w).

Definition cross_device (e : exn) (left : option nat) (w : World) : World :=
  mkWorld (files w) (walk w) (open_error w) (locked_elsewhere w)
          (makedirs_error w)
          (is_dir w) (fun _ _ => true)
          (fun _ _ => Some (e, left)) (unlink_error w)
          (storage_client_error w) (logging_client_error w)
          (exists_error w) (upload_error w)
          (next_fd w) (open_files w) (flocks w) (blobs w)
          (uuid_hex w) (uuid_drawn w) (trace w).

(** A computation leaves an observation of the world as it was. *)
Definition preserves {X A : Type} (obs : World -> X) (m : M A) : Prop :=
  forall w, obs (snd (m w)) = obs w.

(** A computation raises no exception but those of [P]. *)
Definition raises_only {A : Type} (P : exn -> Prop) (m : M A) : Prop :=
  forall w e w', m w = (Raise e, w') -> P e.

(** A candidate that passes the checks of [_handle_event]: it has a size
    that is not zero, its path does not contain the archive root and holds
    the file type marker. *)
Definition validated (self : FileManager) (fd : file) (w : World) : bool :=
  match lookup (name fd) (files w) with
  | Some size =>
      negb (Nat.eqb size 0)
      && negb (Str.contains (archive_path self) (name fd))
      && input_path (name fd)
  | None => false
  end.

(** The managers of the examples: an absolute and a relative source root. *)
Definition absolute_fm : FileManager := init "/in" "bucket" "/arc" None.
Definition relative_fm : FileManager := init "./in" "bucket" "./arc" None.

(** ** Vocabulary of the further properties *)

(** [open(path, "rb+")] succeeds in [w]. *)
Definition opens (w : World) (path : string) : bool :=
  match open_error w path with
  | Some _ => false
  | None =>
      match lookup path (files w) with
      | Some _ => true
      | None => false
      end
  end.

(** The candidates of a scan: the paths of the file list that pass
    [_filter_filename]. *)
Definition candidates (self : FileManager) (w : World) : list string :=
  filter (_filter_filename self) (file_list_of (walk w (src_path self))).

(** What decides how a scan ends: the tree [os.walk] yields, the files and
    the failures of [open]. *)
Definition surroundings (w : World)
  : (string -> list (string * list string)) * list (string * nat)
    * (string -> option exn) :=
  (walk w, files w, open_error w).

(** Some candidate of the scan can be opened. *)
Definition candidate_opens (self : FileManager) (w : World) : bool :=
  existsb (opens w) (candidates self w).

(** What is local to the machine of the watcher: the files, the open
    descriptors and the locks. *)
Definition local (w : World) : list (string * nat) * list file * list nat :=
  (files w, open_files w, flocks w).

(** * Properties *)

(** ** The built-ins on examples *)

Section BuiltinExamples.

Example replace_all_occurrences : Str.replace "/in/x/in/f" "/in/" "" = "xf".
Proof. reflexivity. Qed.

Example split_keeps_empty_segments :
  Str.split Str.slash "/a/b" = [""; "a"; "b"]
  /\ Str.split Str.slash "x/" = ["x"; ""]
  /\ Str.split Str.slash "" = [""].
Proof. repeat split. Qed.

Example dirname_examples :
  OsPath.dirname "a//b/c" = "a//b" /\ OsPath.dirname "/x" = "/"
  /\ OsPath.dirname "report.csv" = "".
Proof. repeat split. Qed.

Example join_examples :
  OsPath.join "/arc" "" = "/arc/" /\ OsPath.join "/arc/" "" = "/arc/"
  /\ OsPath.join "/arc/" "/" = "/"
  /\ OsPath.join (OsPath.join "/arc/" "acme/2024") "f.csv" = "/arc/acme/2024/f.csv".
Proof. repeat split. Qed.

(** The greedy [.+] of [gz_r] runs to the last [.gz] of the name. *)
Example gz_r_is_greedy :
  Re.findall Patterns.gz_r "a.b.gzxx.c.gzyy" = [".b.gzxx.c.gz"]
  /\ Re.sub Patterns.gz_r "" "a.b.gzxx.c.gzyy" = "ayy".
Proof. split; reflexivity. Qed.

(** [$] also matches before a line feed that ends the name. *)
Example other_r_before_line_feed :
  Re.findall Patterns.other_r ("a.csv" ++ String Str.newline "") = [".csv"].
Proof. reflexivity. Qed.

Example filter_r_examples :
  Re.matches Patterns.filter_r "/in/acme/report.csv" = true
  /\ Re.matches Patterns.filter_r ".a" = false.
Proof. split; reflexivity. Qed.

End BuiltinExamples.

(** ** Strings and paths *)

Section StringFacts.

Lemma take_length (s : string) : Str.take (String.length s) s = s.
Proof. induction s as [|c s IH]; simpl; [reflexivity | now rewrite IH]. Qed.

Lemma rfind_drop_after (c : ascii) (s : string) :
  Str.rfind c (Str.drop (Str.after_rfind c s) s) = None.
Proof.
  unfold Str.after_rfind.
  induction s as [|d s IH]; simpl; [reflexivity|].
  destruct (Str.rfind c s) as [k|] eqn:E.
  - exact IH.
  - destruct (Ascii.eqb d c) eqn:Ed; simpl.
    + exact E.
    + now rewrite E, Ed.
Qed.

(** A base name has no directory part. *)
Lemma dirname_basename (p : string) :
  OsPath.dirname (OsPath.basename p) = EmptyString.
Proof.
  unfold OsPath.dirname, OsPath.basename.
  set (b := Str.drop (Str.after_rfind Str.slash p) p).
  assert (Hb : Str.after_rfind Str.slash b = 0).
  { unfold Str.after_rfind, b. now rewrite rfind_drop_after. }
  rewrite Hb. destruct b; reflexivity.
Qed.

End StringFacts.

(** ** The regular expressions of [_replace_extensions] *)

Section GzPattern.

Import Re.

Lemma findall_skip_all (p : pattern) (s : string) (k : nat) :
  String.length s <= k -> findall_from p k s = [].
Proof.
  revert k; induction s as [|c s IH]; intros k Hk; simpl; [reflexivity|].
  simpl in Hk. destruct k as [|k]; [lia|]. apply IH. lia.
Qed.

Lemma sub_skip_all (p : pattern) (r s : string) (k : nat) :
  String.length s <= k -> sub_from p r k s = EmptyString.
Proof.
  revert k; induction s as [|c s IH]; intros k Hk; simpl; [reflexivity|].
  simpl in Hk. destruct k as [|k]; [lia|]. apply IH. lia.
Qed.

(** The greedy [.+] runs to the last [.gz]: here the one that ends the
    name. *)
Lemma plus_to_trailing_gz (mid : string) :
  mid <> EmptyString -> free_of Str.newline mid = true ->
  plus_greedy AnyChar (match_here gz_tail) (mid ++ ".gz") = Some EmptyString.
Proof.
  induction mid as [|c mid IH]; intros Hne Hfree; [congruence|].
  simpl in Hfree. apply andb_prop in Hfree as [Hc Hfree].
  change ((String c mid ++ ".gz")%string) with (String c (mid ++ ".gz")).
  cbn [plus_greedy in_class]. rewrite Hc.
  destruct mid as [|d mid].
  - reflexivity.
  - rewrite IH; [reflexivity | congruence | exact Hfree].
Qed.

Lemma gz_r_at_dot (mid : string) :
  mid <> EmptyString -> free_of Str.newline mid = true ->
  match_here Patterns.gz_r ("." ++ mid ++ ".gz") = Some EmptyString.
Proof.
  intros Hne Hfree.
  change (match_here Patterns.gz_r ("." ++ mid ++ ".gz"))
    with (plus_greedy AnyChar (match_here gz_tail) (mid ++ ".gz")).
  now apply plus_to_trailing_gz.
Qed.

Lemma gz_r_not_at (c : ascii) (s : string) :
  Ascii.eqb c Str.dot = false ->
  match_here Patterns.gz_r (String c s) = None.
Proof. intros H. simpl. now rewrite H. Qed.

Lemma findall_gz_suffix (stem mid : string) :
  free_of Str.dot stem = true ->
  mid <> EmptyString -> free_of Str.newline mid = true ->
  findall Patterns.gz_r (stem ++ "." ++ mid ++ ".gz")
  = [("." ++ mid ++ ".gz")%string].
Proof.
  intros Hstem Hne Hfree. unfold findall.
  induction stem as [|c stem IH].
  - change (("" ++ "." ++ mid ++ ".gz")%string)
      with (String Str.dot (mid ++ ".gz")).
    cbn [findall_from].
    change (String Str.dot (mid ++ ".gz")) with ("." ++ mid ++ ".gz")%string.
    rewrite gz_r_at_dot by assumption.
    cbn [String.length]. rewrite Nat.sub_0_r.
    change (("." ++ mid ++ ".gz")%string) with (String Str.dot (mid ++ ".gz")).
    rewrite (take_length (String Str.dot (mid ++ ".gz"))).
    f_equal. apply findall_skip_all. simpl. lia.
  - simpl in Hstem. apply andb_prop in Hstem as [Hc Hstem].
    apply negb_true_iff in Hc.
    change ((String c stem ++ "." ++ mid ++ ".gz")%string)
      with (String c (stem ++ "." ++ mid ++ ".gz")).
    cbn [findall_from]. rewrite gz_r_not_at by exact Hc.
    now apply IH.
Qed.

Lemma sub_gz_suffix (stem mid : string) :
  free_of Str.dot stem = true ->
  mid <> EmptyString -> free_of Str.newline mid = true ->
  sub Patterns.gz_r "" (stem ++ "." ++ mid ++ ".gz") = stem.
Proof.
  intros Hstem Hne Hfree. unfold sub.
  induction stem as [|c stem IH].
  - change (("" ++ "." ++ mid ++ ".gz")%string)
      with (String Str.dot (mid ++ ".gz")).
    cbn [sub_from].
    change (String Str.dot (mid ++ ".gz")) with ("." ++ mid ++ ".gz")%string.
    rewrite gz_r_at_dot by assumption.
    cbn [String.append]. apply sub_skip_all. simpl. lia.
  - simpl in Hstem. apply andb_prop in Hstem as [Hc Hstem].
    apply negb_true_iff in Hc.
    change ((String c stem ++ "." ++ mid ++ ".gz")%string)
      with (String c (stem ++ "." ++ mid ++ ".gz")).
    cbn [sub_from]. rewrite gz_r_not_at by exact Hc.
    f_equal. now apply IH.
Qed.

End GzPattern.

(** ** [_replace_extensions] *)

Section ReplaceExtensions.

(** C8.  [_replace_extensions] maps [archive.tar.gz] to
    [("archive", ".tar.gz")], [data.gz] to [("data", ".gz")] and
    [report.csv] to [("report", ".csv")]; and a file name that matches
    none of the three extension patterns (the compound [.gz] pattern, the
    ending [.gz], the trailing [.<token>]) gives [None]. *)
Theorem replace_extensions_cases :
  _replace_extensions "archive.tar.gz" = Some ("archive", ".tar.gz")
  /\ _replace_extensions "data.gz" = Some ("data", ".gz")
  /\ _replace_extensions "report.csv" = Some ("report", ".csv")
  /\ forall file_name : string,
       Re.findall Patterns.gz_r file_name = [] ->
       Str.endswith file_name ".gz" = false ->
       Re.findall Patterns.other_r file_name = [] ->
       _replace_extensions file_name = None.
Proof.
  repeat split; try reflexivity.
  intros file_name Hgz Hend Hother. unfold _replace_extensions.
  rewrite Hgz, Hend, Hother. now destruct (negb (Str.truthy file_name)).
Qed.

Lemma replace_extensions_cases_witness :
  Re.findall Patterns.gz_r "README" = []
  /\ Str.endswith "README" ".gz" = false
  /\ Re.findall Patterns.other_r "README" = []
  /\ _replace_extensions "README" = None.
Proof.
  split; [reflexivity|]. split; [reflexivity|]. split; [reflexivity|].
  apply (proj2 (proj2 (proj2 replace_extensions_cases)) "README");
    reflexivity.
Defined.

(** The converse of the last part of C8: [None] is returned for no other
    name. *)
Lemma replace_extensions_none (file_name : string) :
  _replace_extensions file_name = None ->
  Re.findall Patterns.gz_r file_name = []
  /\ Str.endswith file_name ".gz" = false
  /\ Re.findall Patterns.other_r file_name = [].
Proof.
  unfold _replace_extensions.
  destruct file_name as [|c s]; [intros _; repeat split; reflexivity|].
  cbn [Str.truthy negb].
  destruct (Re.findall Patterns.gz_r (String c s)); [|discriminate].
  destruct (Str.endswith (String c s) ".gz"); [discriminate|].
  destruct (Re.findall Patterns.other_r (String c s)); [|discriminate].
  now intros _.
Qed.

(** The word characters of the trailing [.<token>] are those of a Python
    [str] pattern: a letter outside ASCII (here code point 233, a small e
    with an acute accent) belongs to the extension, while a sign such as
    the multiplication sign (code point 215) does not. *)
Example replace_extensions_accented_letter :
  let e_acute := String (ascii_of_nat 233) EmptyString in
  let times := String (ascii_of_nat 215) EmptyString in
  _replace_extensions (String.append "a." e_acute)
  = Some ("a", String.append "." e_acute)
  /\ _replace_extensions (String.append "a." times) = None.
Proof. split; reflexivity. Qed.

Lemma contains_nonempty (sub s : string) :
  sub <> EmptyString -> Str.contains sub s = true -> s <> EmptyString.
Proof.
  intros Hsub H ->. destruct sub; [congruence | discriminate H].
Qed.

Lemma replace_extensions_gz (stem mid : string) :
  free_of Str.dot stem = true ->
  mid <> EmptyString ->
  free_of Str.newline mid = true ->
  _replace_extensions (stem ++ "." ++ mid ++ ".gz")
  = Some (stem, ("." ++ mid ++ ".gz")%string).
Proof.
  intros Hstem Hne Hfree. unfold _replace_extensions.
  rewrite findall_gz_suffix, sub_gz_suffix by assumption.
  now destruct stem.
Qed.

(** C10, amended.  For a file name with two or more dots before a trailing
    [.gz] and no line feed after the first dot, [_replace_extensions]
    returns as stem the part before the first dot and as extension all the
    rest, from the first dot on. *)
Theorem gz_extension_from_first_dot (stem mid : string) :
  free_of Str.dot stem = true ->
  Str.contains "." mid = true ->
  free_of Str.newline mid = true ->
  _replace_extensions (stem ++ "." ++ mid ++ ".gz")
  = Some (stem, ("." ++ mid ++ ".gz")%string).
Proof.
  intros Hstem Hdot Hfree. apply replace_extensions_gz; try assumption.
  apply (contains_nonempty "."); [discriminate | exact Hdot].
Qed.

Lemma gz_extension_from_first_dot_witness :
  free_of Str.dot "a" = true
  /\ Str.contains "." "b.tar" = true
  /\ free_of Str.newline "b.tar" = true
  /\ _replace_extensions "a.b.tar.gz" = Some ("a", ".b.tar.gz").
Proof.
  split; [reflexivity|]. split; [reflexivity|]. split; [reflexivity|].
  apply (gz_extension_from_first_dot "a" "b.tar"); reflexivity.
Defined.

(** C10 as stated fails on the name made of [a.], a line feed and
    [b.c.gz]: it has three dots before its trailing [gz], the part before
    the first dot is [a], and the stem returned runs up to the second
    dot. *)
Lemma gz_extension_line_feed_counterexample :
  let stem := "a" in
  let mid := String Str.newline "b.c" in
  free_of Str.dot stem = true
  /\ Str.contains "." mid = true
  /\ _replace_extensions (stem ++ "." ++ mid ++ ".gz")
     = Some (("a." ++ String Str.newline "b")%string, ".c.gz")
  /\ _replace_extensions (stem ++ "." ++ mid ++ ".gz")
     <> Some (stem, ("." ++ mid ++ ".gz")%string).
Proof.
  repeat split; try reflexivity. vm_compute. discriminate.
Qed.

End ReplaceExtensions.

(** ** [_add_uuid_to_filename] *)

Section CollisionSuffix.

(** For a key that is not empty the method draws an identifier and raises
    [TypeError]. *)
Lemma add_uuid_to_filename_nonempty (c : ascii) (key : string) (w : World) :
  _add_uuid_to_filename (Some (String c key)) w
  = (Raise TypeError, snd (uuid4_hex w)).
Proof.
  unfold _add_uuid_to_filename, bind. cbn [uuid4_hex snd].
  now rewrite dirname_basename.
Qed.

(** C4 fails on the code.  For every non-empty key, in every world,
    [_add_uuid_to_filename] returns no string: the directory part it takes
    of the base name is empty, [_replace_extensions] gives [None] for it,
    and unpacking that [None] raises [TypeError]. *)
Theorem add_uuid_to_filename_raises (c : ascii) (key : string) (w : World) :
  OsPath.dirname (OsPath.basename (String c key)) = ""
  /\ _replace_extensions "" = None
  /\ fst (_add_uuid_to_filename (Some (String c key)) w) = Raise TypeError.
Proof.
  split; [apply dirname_basename|]. split; [reflexivity|].
  now rewrite add_uuid_to_filename_nonempty.
Qed.

Lemma add_uuid_to_filename_empty (w : World) :
  _add_uuid_to_filename None w = (Ret None, w)
  /\ _add_uuid_to_filename (Some EmptyString) w = (Ret None, w).
Proof. split; reflexivity. Qed.

End CollisionSuffix.

(** ** Category and remainder *)

Section Derivation.

Variable self : FileManager.

Lemma split_cons (c : ascii) (s : string) :
  exists h t, Str.split c s = h :: t.
Proof.
  induction s as [|d s [h [t IH]]]; simpl; [now eexists; eexists|].
  rewrite IH. destruct (Ascii.eqb d c); now eexists; eexists.
Qed.

Lemma relative_empty : relative self "" = "".
Proof. unfold relative, Str.replace. now destruct (src_path self). Qed.

Lemma extract_nonempty (c : ascii) (s : string)
      (extr_f : list string -> string) (gt_l : nat) :
  _extract self (String c s) extr_f gt_l
  = if Nat.ltb gt_l (List.length (segments self (String c s)))
    then nonempty (extr_f (segments self (String c s)))
    else None.
Proof.
  unfold _extract, segments, relative. cbn [Str.truthy negb].
  destruct (split_cons Str.slash (Str.replace (String c s) (src_path self) ""))
    as [h [t ->]].
  reflexivity.
Qed.

Lemma join_cons_char (d : ascii) (h : string) (t : list string) :
  Str.join "/" (String d h :: t) = String d (Str.join "/" (h :: t)).
Proof. unfold Str.join. now destruct t. Qed.

(** Joining the segments gives the relative path back. *)
Lemma join_split (s : string) : Str.join "/" (Str.split Str.slash s) = s.
Proof.
  induction s as [|d s IH]; [reflexivity|]. cbn [Str.split].
  destruct (split_cons Str.slash s) as [h [t E]]. rewrite E in *.
  destruct (Ascii.eqb d Str.slash) eqn:Ed.
  - apply Ascii.eqb_eq in Ed. subst d.
    change (Str.join "/" ("" :: h :: t)) with (String Str.slash (Str.join "/" (h :: t))).
    now rewrite IH.
  - now rewrite join_cons_char, IH.
Qed.



End Derivation.



(** ** Effects that a computation does not have *)

Section Preservation.

Context {X : Type} (obs : World -> X).

Lemma preserves_ret {A} (a : A) : preserves obs (ret a).
Proof. now intros w. Qed.

Lemma preserves_raise {A} (e : exn) : preserves obs (@raise A e).
Proof. now intros w. Qed.

Lemma preserves_bind {A B} (m : M A) (k : A -> M B) :
  preserves obs m -> (forall a, preserves obs (k a)) ->
  preserves obs (bind m k).
Proof.
  intros Hm Hk w. unfold bind. specialize (Hm w).
  destruct (m w) as [[a|e] w']; cbn [snd] in *.
  - now rewrite Hk.
  - exact Hm.
Qed.

Lemma preserves_raise_bind {A B} (e : exn) (k : A -> M B) :
  preserves obs (bind (raise e) k).
Proof. now intros w. Qed.

Lemma preserves_try_except {A} (m : M A) (h : exn -> M A) :
  preserves obs m -> (forall e, preserves obs (h e)) ->
  preserves obs (try_except m h).
Proof.
  intros Hm Hh w. unfold try_except. specialize (Hm w).
  destruct (m w) as [[a|e] w']; cbn [snd] in *.
  - exact Hm.
  - now rewrite Hh.
Qed.

Lemma preserves_try_finally {A} (m : M A) (fin : M unit) :
  preserves obs m -> preserves obs fin ->
  preserves obs (try_finally m fin).
Proof.
  intros Hm Hf w. unfold try_finally. specialize (Hm w).
  destruct (m w) as [r w']; cbn [snd] in *. specialize (Hf w').
  destruct (fin w') as [[u|e] w'']; cbn [snd] in *; congruence.
Qed.

Lemma preserves_for_each {A} (l : list A) (body : A -> M unit) :
  (forall x, preserves obs (body x)) -> preserves obs (for_each l body).
Proof.
  intros Hb. induction l as [|x l IH]; cbn [for_each].
  - apply preserves_ret.
  - apply preserves_bind; auto.
Qed.

End Preservation.

Create HintDb effects.

#[local] Hint Resolve preserves_ret preserves_raise : effects.

(** Breaks the goal [preserves obs m] along the structure of [m]. *)
Ltac preserved :=
  repeat first
    [ solve [auto with effects]
    | apply preserves_raise_bind
    | apply preserves_bind; [|intros ?]
    | apply preserves_try_except; [|intros ?]
    | apply preserves_try_finally
    | apply preserves_for_each; intros ?
    | match goal with
      | |- preserves _ (match ?x with _ => _ end) => destruct x
      | |- preserves _ (if ?b then _ else _) => destruct b
      end ].

(** *** The sleeps *)

Section Sleeps.

Lemma sleeps_app (t u : list event) : sleeps (t ++ u) = sleeps t ++ sleeps u.
Proof. unfold sleeps. apply filter_app. Qed.

Lemma slept_log (l : level) (fmt : string) (args : list arg) :
  preserves slept (log l fmt args).
Proof.
  intros w. unfold slept. cbn. rewrite sleeps_app. cbn. apply app_nil_r.
Qed.

Lemma slept_log_exception (e : exn) : preserves slept (log_exception e).
Proof. apply slept_log. Qed.

Lemma slept_py_open (path : string) : preserves slept (py_open path).
Proof.
  intros w. unfold py_open.
  destruct (open_error w path); [reflexivity|].
  now destruct (lookup path (files w)).
Qed.

Lemma slept_flock_ex_nb (fd : file) : preserves slept (flock_ex_nb fd).
Proof. intros w. unfold flock_ex_nb. now destruct (locked_elsewhere w _). Qed.

Lemma slept_stat_size (path : string) : preserves slept (stat_size path).
Proof. intros w. unfold stat_size. now destruct (lookup path (files w)). Qed.

End Sleeps.

#[local] Hint Resolve slept_log slept_log_exception slept_py_open
  slept_flock_ex_nb slept_stat_size : effects.

(** *** What a scan preserves

    As shipped, [_handle_event] ends at its call of [upload_to_gcs]; a scan
    therefore only logs, opens, locks and reads sizes, and leaves as it was
    whatever those four leave. *)

Section ScanPreserves.

Context {X : Type} (obs : World -> X).

Hypothesis obs_log :
  forall l fmt args, preserves obs (log l fmt args).
Hypothesis obs_py_open : forall path, preserves obs (py_open path).
Hypothesis obs_flock_ex_nb : forall fd, preserves obs (flock_ex_nb fd).
Hypothesis obs_stat_size : forall path, preserves obs (stat_size path).

Variable self : FileManager.

Lemma preserves_file_lock (file_path : string) (func : file -> M unit) :
  (forall fd, preserves obs (func fd)) ->
  preserves obs (_file_lock file_path func).
Proof.
  intros Hf w. unfold _file_lock.
  pose proof (obs_py_open file_path w) as Ho.
  destruct (py_open file_path w) as [[fd|e] w1]; cbn [snd] in Ho;
    rewrite <- Ho;
    match goal with
    | |- obs (snd (?m w1)) = _ =>
        assert (Q : preserves obs m);
        [ unfold log_deferred, log_exception, getattr_fcntl, flock_one_argument;
          preserved
        | apply Q ]
    end.
Qed.

Lemma preserves_handle_event (event_path : string) :
  preserves obs (handle_event self event_path).
Proof.
  unfold handle_event. apply preserves_file_lock. intros fd.
  unfold _handle_event, _handle_event_via, upload_to_gcs_fd_only. preserved.
Qed.

Lemma preserves_scan : preserves obs (scan self).
Proof.
  unfold scan, _process_all_files, log_exception.
  pose proof preserves_handle_event.
  assert (forall top, preserves obs (os_walk top)) by now intros top w.
  preserved.
Qed.

End ScanPreserves.

Lemma slept_scan (self : FileManager) : preserves slept (scan self).
Proof.
  apply preserves_scan; auto with effects.
Qed.

(** ** Exceptions that escape *)

Section Escaping.

Context (P : exn -> Prop).

Lemma raises_only_ret {A} (a : A) : raises_only P (ret a).
Proof. intros w e w' H. discriminate H. Qed.

Lemma raises_only_bind {A B} (m : M A) (k : A -> M B) :
  raises_only P m -> (forall a, raises_only P (k a)) ->
  raises_only P (bind m k).
Proof.
  intros Hm Hk w e w' H. unfold bind in H.
  destruct (m w) as [[a|e0] w0] eqn:E.
  - exact (Hk a w0 e w' H).
  - injection H as -> ->. exact (Hm w e w' E).
Qed.

Lemma raises_only_for_each {A} (l : list A) (body : A -> M unit) :
  (forall x, raises_only P (body x)) -> raises_only P (for_each l body).
Proof.
  intros Hb. induction l as [|x l IH]; cbn [for_each].
  - apply raises_only_ret.
  - apply raises_only_bind; auto.
Qed.

Lemma raises_only_log (l : level) (fmt : string) (args : list arg) :
  raises_only P (log l fmt args).
Proof. intros w e w' H. discriminate H. Qed.

End Escaping.

Section LockGuard.

Variables (file_path : string) (func : file -> M unit).

(** Once the file is open, [_file_lock] ends in the [AttributeError] of
    its [finally], whatever [func] and [flock] did. *)
Lemma file_lock_opened (w w1 : World) (fd : file) :
  py_open file_path w = (Ret fd, w1) ->
  exists w', _file_lock file_path func w = (Raise AttributeError, w').
Proof.
  intros Ho. unfold _file_lock. rewrite Ho. unfold try_finally.
  match goal with
  | |- context [match ?m w1 with _ => _ end] => destruct (m w1) as [r w2]
  end.
  now exists w2.
Qed.

(** When the file cannot be opened, the exception is logged and
    returned. *)
Lemma file_lock_not_opened (w w1 : World) (e : exn) :
  py_open file_path w = (Raise e, w1) ->
  _file_lock file_path func w
  = (Ret (Some e), snd (log_deferred file_path e w1)).
Proof. intros Ho. unfold _file_lock. now rewrite Ho. Qed.

Lemma file_lock_raises :
  raises_only (eq AttributeError) (_file_lock file_path func).
Proof.
  intros w e w' H.
  destruct (py_open file_path w) as [[fd|e0] w1] eqn:Ho.
  - destruct (file_lock_opened w w1 fd Ho) as [w2 H2]. congruence.
  - rewrite (file_lock_not_opened w w1 e0 Ho) in H. discriminate H.
Qed.

End LockGuard.

Section Loop.

Variable self : FileManager.

(** The one exception that escapes a scan is the [AttributeError] of the
    lock guard; in particular never the [InterruptedError] that ends the
    loop. *)
Lemma scan_raises : raises_only (eq AttributeError) (scan self).
Proof.
  unfold scan, _process_all_files.
  apply raises_only_bind; [intros w e w' H; discriminate H|].
  intros tree. apply raises_only_for_each. intros fp.
  destruct (_filter_filename self fp); [|apply raises_only_ret].
  apply raises_only_bind; [apply file_lock_raises|].
  intros [e|]; [apply raises_only_log | apply raises_only_ret].
Qed.

End Loop.

(** ** The lock guard *)

Section Descriptors.

Lemma open_files_log (l : level) (fmt : string) (args : list arg) :
  preserves open_files (log l fmt args).
Proof. now intros w. Qed.

Lemma open_files_flock_ex_nb (fd : file) :
  preserves open_files (flock_ex_nb fd).
Proof. intros w. unfold flock_ex_nb. now destruct (locked_elsewhere w _). Qed.

(** After a call of [_file_lock] that opened the file, the descriptor is
    still open, unless [func] closed it. *)
Lemma file_lock_keeps_descriptor (file_path : string) (func : file -> M unit)
      (w w1 : World) (fd : file) :
  py_open file_path w = (Ret fd, w1) ->
  preserves open_files (func fd) ->
  open_files (snd (_file_lock file_path func w)) = fd :: open_files w.
Proof.
  intros Ho Hf. unfold _file_lock. rewrite Ho.
  assert (H1 : open_files w1 = fd :: open_files w).
  { unfold py_open in Ho. destruct (open_error w file_path); [discriminate|].
    destruct (lookup file_path (files w)); [|discriminate].
    injection Ho as <- <-. reflexivity. }
  rewrite <- H1.
  match goal with
  | |- open_files (snd (?m w1)) = _ =>
      assert (Q : preserves open_files m);
      [ unfold log_deferred, log_exception, getattr_fcntl, flock_one_argument;
        pose proof open_files_log; pose proof open_files_flock_ex_nb;
        preserved
      | apply Q ]
  end.
Qed.

End Descriptors.

Lemma py_open_world (path : string) (w w1 : World) (fd : file) :
  py_open path w = (Ret fd, w1) ->
  name fd = path
  /\ open_files w1 = fd :: open_files w
  /\ flocks w1 = flocks w
  /\ locked_elsewhere w1 = locked_elsewhere w.
Proof.
  unfold py_open. destruct (open_error w path); [discriminate|].
  destruct (lookup path (files w)); [|discriminate].
  intros H. injection H as <- <-. repeat split.
Qed.

(** C1 fails on the code.  For every path, action and world in which the
    file opens, [_file_lock] ends in the [AttributeError] that [fd.fcntl]
    raises in its [finally]: it returns no outcome; the descriptor is left
    open when the action did not close it, and the lock, when it was free
    and the action did not release it, is left held. *)
Theorem file_lock_leaves_descriptor (file_path : string)
        (func : file -> M unit) (w w1 : World) (fd : file) :
  py_open file_path w = (Ret fd, w1) ->
  fst (_file_lock file_path func w) = Raise AttributeError
  /\ (preserves open_files (func fd) ->
      open_files (snd (_file_lock file_path func w)) = fd :: open_files w)
  /\ (preserves flocks (func fd) ->
      locked_elsewhere w file_path = false ->
      flocks (snd (_file_lock file_path func w)) = fileno fd :: flocks w).
Proof.
  intros Ho. split; [|split].
  - destruct (file_lock_opened file_path func w w1 fd Ho) as [w' ->].
    reflexivity.
  - intros Hf. exact (file_lock_keeps_descriptor file_path func w w1 fd Ho Hf).
  - intros Hf Hfree.
    destruct (py_open_world file_path w w1 fd Ho) as (Hn & _ & Hl & He).
    unfold _file_lock. rewrite Ho.
    unfold try_finally, try_except, bind, flock_ex_nb.
    rewrite He, Hn, Hfree.
    match goal with
    | |- context [func fd ?w'] =>
        specialize (Hf w'); destruct (func fd w') as [[u|e] w2]
    end; cbn [snd] in Hf.
    + cbn. rewrite Hf. cbn. now rewrite Hl.
    + destruct e; cbn; rewrite Hf; cbn; now rewrite Hl.
Qed.

Lemma file_lock_leaves_descriptor_witness :
  let path := "/in/acme/file_type_a.csv" in
  let w := calm [(path, 10)] [] [] in
  let fd := mkFile 3 path in
  py_open path w = (Ret fd, snd (py_open path w))
  /\ fst (_file_lock path (fun _ => ret tt) w) = Raise AttributeError.
Proof.
  cbv zeta. split; [reflexivity|].
  apply (proj1 (file_lock_leaves_descriptor
                  "/in/acme/file_type_a.csv" (fun _ => ret tt)
                  (calm [("/in/acme/file_type_a.csv", 10)] [] []) _
                  (mkFile 3 "/in/acme/file_type_a.csv") eq_refl)).
Defined.

(** The three exits after the file was opened: the action returned, the
    action raised, the lock was held by another process. *)
Example file_lock_three_exits :
  let path := "/in/acme/file_type_a.csv" in
  let w := calm [(path, 10)] [] [] in
  let fd := mkFile 3 path in
  let done := _file_lock path (fun _ => ret tt) w in
  let failed := _file_lock path (fun _ => raise OSError) w in
  let contended := _file_lock path (fun _ => ret tt) (locked_by_another w) in
  (fst done = Raise AttributeError
   /\ open_files (snd done) = [fd] /\ flocks (snd done) = [3])
  /\ (fst failed = Raise AttributeError
      /\ open_files (snd failed) = [fd] /\ flocks (snd failed) = [3])
  /\ (fst contended = Raise AttributeError
      /\ open_files (snd contended) = [fd] /\ flocks (snd contended) = []).
Proof. cbv zeta. repeat split; reflexivity. Qed.

(** ** Upload, then archive *)

Section HandleEvent.

Variables (self : FileManager) (upload : file -> M bool).

(** A candidate that passed the checks goes to the upload. *)
Lemma handle_event_via_validated (fd : file) (w : World) :
  validated self fd w = true ->
  _handle_event_via self upload fd w
  = (is_uploaded <- upload fd;;
     if is_uploaded then
       log INFO "Archiving {event_path} to {self.archive_path}"
           [AStr (name fd); AStr (archive_path self)];;
       archive_file self (name fd);;
       ret tt
     else log ERROR "Cannot archive, upload failed" [])
      (snd (log INFO "Uploading to GCS {event_path}" [AStr (name fd)] w)).
Proof.
  unfold validated. intros Hv.
  destruct (lookup (name fd) (files w)) as [size|] eqn:Hl; [|discriminate].
  apply andb_prop in Hv as [Hv Hi]. apply andb_prop in Hv as [Hs Ha].
  apply negb_true_iff in Hs, Ha.
  unfold _handle_event_via, bind at 1, try_except, bind at 1, stat_size.
  rewrite Hl, Hs. cbn [ret]. rewrite Ha, Hi. reflexivity.
Qed.

(** C2.  For a candidate that passed the checks, the outcome of
    [self.upload_to_gcs(fd)] decides the archiving: when it returns false,
    [archive_file] is not called and the files are as the upload left
    them; when it returns true, [archive_file] is called on the path of
    the candidate; when it raises, the exception goes on.  So, with an
    upload that does not touch the local files, the source file is gone
    only if the upload returned true. *)
Theorem archive_iff_uploaded (fd : file) (w : World) :
  validated self fd w = true ->
  let event_path := name fd in
  let w0 := snd (log INFO "Uploading to GCS {event_path}" [AStr event_path] w) in
  (forall w1,
      upload fd w0 = (Ret false, w1) ->
      _handle_event_via self upload fd w
      = (Ret tt, snd (log ERROR "Cannot archive, upload failed" [] w1))
      /\ files (snd (_handle_event_via self upload fd w)) = files w1)
  /\ (forall w1,
         upload fd w0 = (Ret true, w1) ->
         _handle_event_via self upload fd w
         = (archive_file self event_path;; ret tt)
             (snd (log INFO "Archiving {event_path} to {self.archive_path}"
                       [AStr event_path; AStr (archive_path self)] w1)))
  /\ (forall e w1,
         upload fd w0 = (Raise e, w1) ->
         _handle_event_via self upload fd w = (Raise e, w1))
  /\ (preserves files (upload fd) ->
      lookup event_path (files (snd (_handle_event_via self upload fd w))) = None ->
      exists w1, upload fd w0 = (Ret true, w1)).
Proof.
  intros Hv event_path w0.
  pose proof (handle_event_via_validated fd w Hv) as Hrun.
  fold event_path w0 in Hrun.
  assert (Hl : lookup event_path (files w) <> None).
  { unfold validated in Hv. fold event_path in Hv.
    destruct (lookup event_path (files w)); [discriminate | discriminate Hv]. }
  rewrite Hrun.
  split; [|split; [|split]].
  - intros w1 Hu. unfold bind. rewrite Hu. split; reflexivity.
  - intros w1 Hu. unfold bind at 1. rewrite Hu. reflexivity.
  - intros e w1 Hu. unfold bind at 1. now rewrite Hu.
  - intros Hp Hgone. specialize (Hp w0). unfold bind at 1 in Hgone.
    destruct (upload fd w0) as [[[|]|e] w1]; cbn [snd] in Hp.
    + now exists w1.
    + exfalso. cbn in Hgone. rewrite Hp in Hgone. now apply Hl.
    + exfalso. cbn in Hgone. rewrite Hp in Hgone. now apply Hl.
Qed.

End HandleEvent.

(** An upload that is stubbed to fail leaves the candidate where it is. *)
Lemma archive_iff_uploaded_witness :
  let path := "./in/acme/file_type_a.csv" in
  let w := calm [(path, 10)] [] [] in
  let fd := mkFile 3 path in
  validated relative_fm fd w = true
  /\ files (snd (_handle_event_via relative_fm (fun _ => ret false) fd w))
     = [(path, 10)].
Proof.
  cbv zeta. split; [reflexivity|].
  refine (proj2 (proj1 (archive_iff_uploaded relative_fm (fun _ => ret false)
                          (mkFile 3 "./in/acme/file_type_a.csv")
                          (calm [("./in/acme/file_type_a.csv", 10)] [] [])
                          eq_refl)
                       _ eq_refl)).
Defined.

(** As shipped, [_handle_event] calls [upload_to_gcs] without its second
    argument: a validated candidate ends in a [TypeError], neither uploaded
    nor archived. *)
Lemma handle_event_validated (self : FileManager) (fd : file) (w : World) :
  validated self fd w = true ->
  _handle_event self fd w
  = (Raise TypeError,
     snd (log INFO "Uploading to GCS {event_path}" [AStr (name fd)] w)).
Proof.
  intros Hv. unfold _handle_event.
  now rewrite (handle_event_via_validated self _ fd w Hv).
Qed.

(** ** Upload with a key that is taken *)

Section Collision.

Variable self : FileManager.

(** The key under which [upload_to_gcs] first looks: [tgt_path], or the key
    derived from the name of the file when there is none. *)
Lemma upload_to_gcs_first_key (depth : nat) (fd : file)
      (object tgt_path : option string) (w : World) :
  upload_to_gcs self (S depth) fd object tgt_path w
  = (tgt_path <- (if falsy tgt_path then _build_tgt_path self (name fd)
                  else ret tgt_path);;
     log DEBUG "Checking if {tgt_path} exists on {self.target_bucket}"
         [AOpt tgt_path; AStr (target_bucket self)];;
     found <- _gcs_file_exists tgt_path;;
     if found then
       log WARNING "{tgt_path} exists on {self.target_bucket}"
           [AOpt tgt_path; AStr (target_bucket self)];;
       renamed <- _add_uuid_to_filename tgt_path;;
       upload_to_gcs self depth fd renamed None
     else
       try_except
         (log DEBUG "Uploading {current_path} to {tgt_path}"
              [AStr (name fd); AOpt tgt_path];;
          blob_upload tgt_path fd;;
          ret true)
         (fun e =>
            log_exception e;;
            log ERROR
                "Issue with the file upload from {current_path} to {tgt_path}: {e}"
                [AStr (name fd); AOpt tgt_path; AExn e];;
            ret false)) w.
Proof. reflexivity. Qed.

(** C3 fails on the code.  For every initial key that is in the bucket,
    given or derived from the name of the file, [upload_to_gcs] raises the
    [TypeError] of [_add_uuid_to_filename] where C3 has it return true,
    and the bucket is as it was: nothing is uploaded, under the initial key
    or another. *)
Theorem upload_collision_uploads_nothing (depth : nat) (fd : file)
        (object tgt_path : option string) (c : ascii) (key : string)
        (w w1 : World) :
  (if falsy tgt_path then _build_tgt_path self (name fd) else ret tgt_path) w
  = (Ret (Some (String c key)), w1) ->
  exists_error w1 (String c key) = None ->
  existsb (String.eqb (String c key)) (blobs w1) = true ->
  fst (upload_to_gcs self (S depth) fd object tgt_path w) = Raise TypeError
  /\ blobs (snd (upload_to_gcs self (S depth) fd object tgt_path w)) = blobs w1.
Proof.
  intros Hk He Hb.
  assert (H : exists w',
             upload_to_gcs self (S depth) fd object tgt_path w
             = (Raise TypeError, w') /\ blobs w' = blobs w1).
  { rewrite upload_to_gcs_first_key. unfold bind at 1. rewrite Hk.
    unfold bind, ret, log, emit, _gcs_file_exists, blob_exists.
    cbn [set_trace exists_error blobs]. rewrite He, Hb.
    rewrite add_uuid_to_filename_nonempty. eexists. split; reflexivity. }
  destruct H as [w' [-> Hw']]. now split.
Qed.

End Collision.

Lemma upload_collision_uploads_nothing_witness :
  let path := "./in/acme/file_type_a.csv" in
  let w := calm [(path, 10)] [] ["acme/file_type_a.csv"] in
  let run := upload_to_gcs relative_fm 1000 (mkFile 3 path) None None w in
  _build_tgt_path relative_fm path w = (Ret (Some "acme/file_type_a.csv"), w)
  /\ fst run = Raise TypeError
  /\ blobs (snd run) = ["acme/file_type_a.csv"].
Proof.
  cbv zeta. split; [reflexivity|].
  apply (upload_collision_uploads_nothing relative_fm 999
           (mkFile 3 "./in/acme/file_type_a.csv") None None
           (Str.char "a") "cme/file_type_a.csv"
           (calm [("./in/acme/file_type_a.csv", 10)] [] ["acme/file_type_a.csv"])
           _ eq_refl eq_refl eq_refl).
Defined.

(** What the failing call logs before it raises. *)
Example upload_collision_trace :
  let path := "./in/acme/file_type_a.csv" in
  let w := calm [(path, 10)] [] ["acme/file_type_a.csv"] in
  trace (snd (upload_to_gcs relative_fm 1000 (mkFile 3 path) None None w))
  = [Log DEBUG "Checking if {tgt_path} exists on {self.target_bucket}"
         [AOpt (Some "acme/file_type_a.csv"); AStr "bucket"];
     Log WARNING "{tgt_path} exists on {self.target_bucket}"
         [AOpt (Some "acme/file_type_a.csv"); AStr "bucket"]].
Proof. reflexivity. Qed.

(** ** The filter of the scan *)

Section Filter.

Variable self : FileManager.

(** Only a path that starts with a dot passes [_filter_filename]. *)
Lemma filter_filename_starts_with_dot (file_path : string) :
  _filter_filename self file_path = true ->
  Str.startswith file_path "." = true.
Proof.
  unfold _filter_filename. intros H. now apply andb_prop in H as [_ H].
Qed.

End Filter.

(** C5 fails on the code.  Under an absolute source root, a file whose name
    has a dot and does not start with one, outside the archive root, is
    rejected by [_filter_filename], and the scan does not process it; under
    a relative root [./in], a hidden file is kept. *)
Theorem filter_rejects_visible_file :
  let path := "/in/acme/report.csv" in
  let w := calm [(path, 10)] [("/in/acme", ["report.csv"])] [] in
  file_list_of (walk w (src_path absolute_fm)) = [path]
  /\ Str.contains (archive_path absolute_fm) path = false
  /\ _filter_filename absolute_fm path = false
  /\ scan absolute_fm w = (Ret tt, w)
  /\ _filter_filename relative_fm "./in/acme/.report.csv" = true.
Proof. cbv zeta. repeat split; reflexivity. Qed.

(** ** [archive_file] *)

Section Archive.

Variable self : FileManager.

(** C7, amended.  Once the destination key is derived and its directory
    under the archive root is created, [archive_file] returns, when the
    move succeeds, the archive root joined with the directory part of the
    key and the base name of the source file; when the move fails it logs
    the error and returns [None] without raising. *)
Theorem archive_file_outcome (file_path key : string) (w w1 : World) :
  _build_tgt_path self file_path w = (Ret (Some key), w1) ->
  let dir := OsPath.join (archive_path self) (OsPath.dirname key) in
  let tgt := OsPath.join dir (OsPath.basename file_path) in
  makedirs_error w1 dir = None ->
  let w2 := snd (emit (Makedirs dir) w1) in
  (forall w3,
      shutil_move file_path tgt w2 = (Ret tt, w3) ->
      archive_file self file_path w
      = (Ret (Some tgt),
         snd (log INFO
                  "File successfully archive from {file_path} to {tgt_archive_path}"
                  [AStr file_path; AStr tgt] w3)))
  /\ (forall e w3,
         shutil_move file_path tgt w2 = (Raise e, w3) ->
         archive_file self file_path w
         = (Ret None,
            snd (log ERROR
                     "Issue with file archival process for {file_path}: {e}"
                     [AStr file_path; AExn e] w3))).
Proof.
  intros Hk dir tgt Hm w2.
  assert (Hrun : archive_file self file_path w
                 = try_except
                     (shutil_move file_path tgt;;
                      log INFO
                          "File successfully archive from {file_path} to {tgt_archive_path}"
                          [AStr file_path; AStr tgt];;
                      ret (Some tgt))
                     (fun e =>
                        log ERROR
                            "Issue with file archival process for {file_path}: {e}"
                            [AStr file_path; AExn e];;
                        ret None) w2).
  { unfold archive_file, bind at 1. rewrite Hk. cbn [dirname_of].
    unfold bind at 1. cbn [ret]. fold dir. unfold bind at 1, makedirs.
    rewrite Hm. reflexivity. }
  rewrite Hrun. unfold try_except, bind. split.
  - intros w3 Hmv. now rewrite Hmv.
  - intros e w3 Hmv. now rewrite Hmv.
Qed.

End Archive.

Lemma archive_file_outcome_witness :
  let path := "/in/acme/2024/file_type_a.csv" in
  let w := calm [(path, 10)] [] [] in
  _build_tgt_path absolute_fm path w = (Ret (Some "acme/2024/file_type_a.csv"), w)
  /\ makedirs_error w "/arc/acme/2024" = None
  /\ fst (archive_file absolute_fm path w)
     = Ret (Some "/arc/acme/2024/file_type_a.csv").
Proof.
  cbv zeta. split; [reflexivity|]. split; [reflexivity|].
  rewrite (proj1 (archive_file_outcome absolute_fm
                    "/in/acme/2024/file_type_a.csv" "acme/2024/file_type_a.csv"
                    (calm [("/in/acme/2024/file_type_a.csv", 10)] [] [])
                    _ eq_refl eq_refl)
                 _ eq_refl).
  reflexivity.
Defined.

(** C7 as stated fails when the directory cannot be created:
    [os.makedirs] is called before the [try], and its exception leaves
    [archive_file]. *)
Lemma archive_file_makedirs_counterexample :
  let path := "/in/acme/2024/file_type_a.csv" in
  let w := makedirs_failing PermissionError (calm [(path, 10)] [] []) in
  archive_file absolute_fm path w = (Raise PermissionError, w)
  /\ fst (archive_file absolute_fm path w) <> Ret None.
Proof. cbv zeta. split; [reflexivity | discriminate]. Qed.

(** ** What the program leaves untouched *)

(** Settles [preserves obs m] for an operation [m] of the world that does
    not write the part [obs] reads. *)
Ltac untouched :=
  intros ?w;
  repeat match goal with
         | |- context [match ?x with _ => _ end] => destruct x
         | |- context [if ?b then _ else _] => destruct b
         end;
  reflexivity.

Section LocalFiles.

Lemma files_emit (e : event) : preserves files (emit e).
Proof. untouched. Qed.

Lemma files_py_open (path : string) : preserves files (py_open path).
Proof. unfold py_open. untouched. Qed.

Lemma files_flock_ex_nb (fd : file) : preserves files (flock_ex_nb fd).
Proof. unfold flock_ex_nb. untouched. Qed.

Lemma files_stat_size (path : string) : preserves files (stat_size path).
Proof. unfold stat_size. untouched. Qed.

Lemma files_uuid4_hex : preserves files uuid4_hex.
Proof. untouched. Qed.

Lemma files_blob_exists (key : option string) : preserves files (blob_exists key).
Proof. unfold blob_exists. untouched. Qed.

Lemma files_blob_upload (key : option string) (fd : file) :
  preserves files (blob_upload key fd).
Proof. unfold blob_upload. untouched. Qed.

Lemma files_os_walk (top : string) : preserves files (os_walk top).
Proof. untouched. Qed.

End LocalFiles.

Section Bucket.

Lemma blobs_emit (e : event) : preserves blobs (emit e).
Proof. untouched. Qed.

Lemma blobs_py_open (path : string) : preserves blobs (py_open path).
Proof. unfold py_open. untouched. Qed.

Lemma blobs_flock_ex_nb (fd : file) : preserves blobs (flock_ex_nb fd).
Proof. unfold flock_ex_nb. untouched. Qed.

Lemma blobs_stat_size (path : string) : preserves blobs (stat_size path).
Proof. unfold stat_size. untouched. Qed.

Lemma blobs_os_walk (top : string) : preserves blobs (os_walk top).
Proof. untouched. Qed.

End Bucket.

#[local] Hint Resolve files_emit files_py_open files_flock_ex_nb
  files_stat_size files_uuid4_hex files_blob_exists files_blob_upload
  files_os_walk blobs_emit blobs_py_open blobs_flock_ex_nb blobs_stat_size
  blobs_os_walk : effects.

Section Shipped.

Variable self : FileManager.

Lemma files_build_tgt_path (file_path : string) :
  preserves files (_build_tgt_path self file_path).
Proof.
  unfold _build_tgt_path, _extract_org_path, log. preserved.
Qed.

Lemma files_add_uuid_to_filename (key : option string) :
  preserves files (_add_uuid_to_filename key).
Proof. unfold _add_uuid_to_filename. preserved. Qed.

(** The upload does not touch the local files: the only deletion of the
    program is the move of [archive_file]. *)
Lemma files_upload_to_gcs (depth : nat) (fd : file)
      (object tgt_path : option string) :
  preserves files (upload_to_gcs self depth fd object tgt_path).
Proof.
  revert object tgt_path. induction depth as [|d IH]; intros object tgt_path.
  - apply preserves_raise.
  - cbn [upload_to_gcs]. unfold _gcs_file_exists, log_exception, log.
    pose proof files_build_tgt_path. pose proof files_add_uuid_to_filename.
    preserved.
Qed.

(** As shipped, a scan moves no file and uploads no blob: the call of
    [upload_to_gcs] in [_handle_event] raises before the upload. *)
Lemma scan_moves_nothing :
  preserves files (scan self) /\ preserves blobs (scan self).
Proof.
  split; apply preserves_scan; unfold log; auto with effects.
Qed.

End Shipped.

(** * Further properties *)

(** ** The destination key *)

Section DestinationKey.

Variable self : FileManager.

Lemma extract_truthy (file_path : string) (extr_f : list string -> string)
      (gt_l : nat) (p : string) :
  _extract self file_path extr_f gt_l = Some p -> Str.truthy p = true.
Proof.
  unfold _extract. destruct (negb (Str.truthy file_path)); [discriminate|].
  match goal with
  | |- context [if ?b then _ else None] => destruct b; [|discriminate]
  end.
  match goal with
  | |- context [if ?b then _ else None] => destruct b eqn:E; [|discriminate]
  end.
  intros H. injection H as <-. exact E.
Qed.

Lemma filepath_from_org_truthy (file_path r : string) :
  _extract_filepath_from_org self file_path = Some r -> Str.truthy r = true.
Proof.
  unfold _extract_filepath_from_org.
  destruct (_extract self file_path (fun s => Str.join "/" (tl s)) 0)
    as [[|c x]|]; try apply extract_truthy.
  intros H. injection H as <-. reflexivity.
Qed.

Lemma org_path_returns (file_path : string) (w : World) :
  exists org w', _extract_org_path self file_path w = (Ret org, w').
Proof.
  unfold _extract_org_path.
  destruct (file_type self); [destruct (Str.truthy file_path)|];
    eexists; eexists; reflexivity.
Qed.

(** X1.  A key that [_build_tgt_path] returns is never the empty string. *)
Theorem destination_key_not_empty (file_path key : string) (w w' : World) :
  _build_tgt_path self file_path w = (Ret (Some key), w') -> key <> "".
Proof.
  unfold _build_tgt_path, bind.
  destruct (org_path_returns file_path w) as [org [w1 ->]].
  destruct org as [[|c o]|].
  - cbn. intros H. injection H as H _.
    apply filepath_from_org_truthy in H. now destruct key.
  - destruct (_extract_filepath_from_org self file_path); [|discriminate].
    cbn. intros H. injection H as <- _. discriminate.
  - cbn. intros H. injection H as H _.
    apply filepath_from_org_truthy in H. now destruct key.
Qed.



(** The remainder of a path of two or more segments whose tail joins to a
    string that is not empty. *)
Lemma remainder_of_tail (file_path : string) :
  2 <= List.length (segments self file_path) ->
  Str.truthy (Str.join "/" (tl (segments self file_path))) = true ->
  _extract_filepath_from_org self file_path
  = Some (Str.join "/" (tl (segments self file_path))).
Proof.
  intros Hlen Htail. destruct file_path as [|c s].
  - unfold segments in Hlen. rewrite relative_empty in Hlen. cbn in Hlen. lia.
  - unfold _extract_filepath_from_org. rewrite !extract_nonempty.
    destruct (segments self (String c s)) as [|a [|b l]]; cbn in Hlen; try lia.
    cbn [Nat.ltb Nat.leb tl] in *. unfold nonempty. rewrite Htail.
    now destruct (Str.join "/" (b :: l)).
Qed.



(** X4.  With a fixed category, a path that is not empty and whose relative
    path is (the source root itself) has no remainder: [_build_tgt_path]
    raises [TypeError], and so does [archive_file]. *)
Theorem fixed_category_on_source_root (ft file_path : string) (w : World) :
  file_type self = Some ft ->
  Str.truthy ft = true ->
  Str.truthy file_path = true ->
  relative self file_path = "" ->
  fst (_build_tgt_path self file_path w) = Raise TypeError
  /\ fst (archive_file self file_path w) = Raise TypeError.
Proof.
  intros Hft Htruthy Hfp Hrel.
  assert (H : exists w', _build_tgt_path self file_path w = (Raise TypeError, w')).
  { unfold _build_tgt_path, bind, _extract_org_path. rewrite Hft, Hfp.
    destruct file_path as [|c s]; [discriminate|].
    unfold _extract_filepath_from_org. rewrite !extract_nonempty.
    unfold segments. rewrite Hrel. cbn.
    destruct ft as [|x ft]; [discriminate|]. eexists. reflexivity. }
  destruct H as [w' H]. split.
  - now rewrite H.
  - unfold archive_file, bind. now rewrite H.
Qed.

End DestinationKey.

Lemma destination_key_not_empty_witness :
  _build_tgt_path absolute_fm "/in/acme/report.csv" (calm [] [] [])
  = (Ret (Some "acme/report.csv"), calm [] [] [])
  /\ "acme/report.csv" <> "".
Proof.
  split; [reflexivity|].
  apply (destination_key_not_empty absolute_fm "/in/acme/report.csv"
           "acme/report.csv" (calm [] [] []) (calm [] [] []) eq_refl).
Defined.



Lemma fixed_category_on_source_root_witness :
  let fm := init "/in" "bucket" "/arc" (Some "orders") in
  relative fm "/in/" = ""
  /\ fst (_build_tgt_path fm "/in/" (calm [] [] [])) = Raise TypeError.
Proof.
  cbv zeta. split; [reflexivity|].
  apply (proj1 (fixed_category_on_source_root
                  (init "/in" "bucket" "/arc" (Some "orders")) "orders" "/in/"
                  (calm [] [] []) eq_refl eq_refl eq_refl eq_refl)).
Defined.

(** ** The upload *)

Section Upload.

Variable self : FileManager.

Lemma blobs_uuid4_hex : preserves blobs uuid4_hex.
Proof. untouched. Qed.

Lemma blobs_build_tgt_path (file_path : string) :
  preserves blobs (_build_tgt_path self file_path).
Proof.
  unfold _build_tgt_path, _extract_org_path, log. preserved.
Qed.

Lemma existsb_eqb_false (k : string) (l : list string) :
  existsb (String.eqb k) l = false -> ~ In k l.
Proof.
  intros H Hin. assert (existsb (String.eqb k) l = true); [|congruence].
  apply existsb_exists. exists k. split; [exact Hin | apply String.eqb_refl].
Qed.

(** What [upload_to_gcs] does once its key is known. *)
Lemma upload_to_gcs_with_key (depth : nat) (fd : file)
      (object tgt_path : option string) (c : ascii) (key : string)
      (w w1 : World) :
  (if falsy tgt_path then _build_tgt_path self (name fd) else ret tgt_path) w
  = (Ret (Some (String c key)), w1) ->
  exists w2,
    trace w2 = trace w1
                 ++ [Log DEBUG "Checking if {tgt_path} exists on {self.target_bucket}"
                         [AOpt (Some (String c key)); AStr (target_bucket self)]]
    /\ blobs w2 = blobs w1
    /\ exists_error w2 = exists_error w1
    /\ upload_error w2 = upload_error w1
    /\ upload_to_gcs self (S depth) fd object tgt_path w
       = match exists_error w1 (String c key) with
         | Some e => (Raise e, w2)
         | None =>
             if existsb (String.eqb (String c key)) (blobs w1) then
               (log WARNING "{tgt_path} exists on {self.target_bucket}"
                    [AOpt (Some (String c key)); AStr (target_bucket self)];;
                renamed <- _add_uuid_to_filename (Some (String c key));;
                upload_to_gcs self depth fd renamed None) w2
             else
               try_except
                 (log DEBUG "Uploading {current_path} to {tgt_path}"
                      [AStr (name fd); AOpt (Some (String c key))];;
                  blob_upload (Some (String c key)) fd;;
                  ret true)
                 (fun e =>
                    log_exception e;;
                    log ERROR
                        "Issue with the file upload from {current_path} to {tgt_path}: {e}"
                        [AStr (name fd); AOpt (Some (String c key)); AExn e];;
                    ret false) w2
         end.
Proof.
  intros Hk. eexists. split; [|split; [|split; [|split]]].
  5: { rewrite upload_to_gcs_first_key. unfold bind at 1. rewrite Hk.
       unfold bind at 1. cbn [log emit]. unfold bind at 1.
       unfold _gcs_file_exists, blob_exists. cbn [exists_error set_trace blobs].
       destruct (exists_error w1 (String c key)); [reflexivity|].
       destruct (existsb (String.eqb (String c key)) (blobs w1)); reflexivity. }
  all: reflexivity.
Qed.

(** X5.  [upload_to_gcs] never writes under a key that is in the bucket: a
    bucket without a key twice has none twice after the call, whatever the
    arguments and however the call ends. *)
Theorem upload_never_overwrites (depth : nat) (fd : file)
        (object tgt_path : option string) (w : World) :
  NoDup (blobs w) ->
  NoDup (blobs (snd (upload_to_gcs self depth fd object tgt_path w))).
Proof.
  intros Hnd. destruct depth as [|depth]; [exact Hnd|].
  assert (Hres : preserves blobs
                   (if falsy tgt_path then _build_tgt_path self (name fd)
                    else ret tgt_path)).
  { destruct (falsy tgt_path); [apply blobs_build_tgt_path | apply preserves_ret]. }
  specialize (Hres w).
  destruct ((if falsy tgt_path then _build_tgt_path self (name fd)
             else ret tgt_path) w) as [[key|e] w1] eqn:Hk; cbn [snd] in Hres.
  - destruct key as [[|c key]|].
    + rewrite upload_to_gcs_first_key. unfold bind at 1. rewrite Hk.
      cbn. now rewrite Hres.
    + destruct (upload_to_gcs_with_key depth fd object tgt_path c key w w1 Hk)
        as (w2 & _ & Hb & _ & Hu & ->).
      destruct (exists_error w1 (String c key)); [cbn; congruence|].
      destruct (existsb (String.eqb (String c key)) (blobs w1)) eqn:Hin.
      * unfold bind at 1. cbn [log emit]. unfold bind at 1.
        rewrite add_uuid_to_filename_nonempty. cbn. congruence.
      * unfold try_except, bind at 1. cbn [log emit]. unfold bind at 1.
        unfold blob_upload. cbn [upload_error set_trace]. rewrite Hu.
        destruct (upload_error w1 (String c key)).
        -- cbn. congruence.
        -- cbn. rewrite Hb. constructor; [|congruence].
           now apply existsb_eqb_false.
    + rewrite upload_to_gcs_first_key. unfold bind at 1. rewrite Hk.
      cbn. now rewrite Hres.
  - rewrite upload_to_gcs_first_key. unfold bind at 1. rewrite Hk.
    cbn. now rewrite Hres.
Qed.

(** X6.  When the key is not in the bucket, [upload_to_gcs] returns true and
    the bucket gains that key if the store accepts the upload; if the store
    raises, it returns false, and the bucket is as it was. *)
Theorem upload_under_free_key (depth : nat) (fd : file)
        (object tgt_path : option string) (c : ascii) (key : string)
        (w w1 : World) :
  (if falsy tgt_path then _build_tgt_path self (name fd) else ret tgt_path) w
  = (Ret (Some (String c key)), w1) ->
  exists_error w1 (String c key) = None ->
  existsb (String.eqb (String c key)) (blobs w1) = false ->
  (upload_error w1 (String c key) = None ->
   fst (upload_to_gcs self (S depth) fd object tgt_path w) = Ret true
   /\ blobs (snd (upload_to_gcs self (S depth) fd object tgt_path w))
      = String c key :: blobs w1)
  /\ (forall e,
         upload_error w1 (String c key) = Some e ->
         fst (upload_to_gcs self (S depth) fd object tgt_path w) = Ret false
         /\ blobs (snd (upload_to_gcs self (S depth) fd object tgt_path w))
            = blobs w1).
Proof.
  intros Hk He Hfree.
  destruct (upload_to_gcs_with_key depth fd object tgt_path c key w w1 Hk)
    as (w2 & _ & Hb & _ & Hu & ->).
  rewrite He, Hfree.
  unfold try_except, bind, log_exception, log, emit, blob_upload, ret.
  cbn [upload_error set_trace]. rewrite Hu. split.
  - intros ->. cbn. now rewrite Hb.
  - intros e ->. cbn. now rewrite Hb.
Qed.

End Upload.

Lemma upload_never_overwrites_witness :
  let w := calm [("./in/acme/file_type_a.csv", 10)] [] ["acme/other.csv"] in
  NoDup (blobs w)
  /\ NoDup (blobs (snd (upload_to_gcs relative_fm 1000
                          (mkFile 3 "./in/acme/file_type_a.csv") None None w))).
Proof.
  cbv zeta.
  assert (H : NoDup ["acme/other.csv"])
    by (constructor; [intros [] | constructor]).
  split; [exact H|].
  apply (upload_never_overwrites relative_fm 1000
           (mkFile 3 "./in/acme/file_type_a.csv") None None
           (calm [("./in/acme/file_type_a.csv", 10)] [] ["acme/other.csv"]) H).
Defined.

Lemma upload_under_free_key_witness :
  let w := calm [("./in/acme/file_type_a.csv", 10)] [] ["acme/other.csv"] in
  let run := upload_to_gcs relative_fm 1000
               (mkFile 3 "./in/acme/file_type_a.csv") None None w in
  fst run = Ret true
  /\ blobs (snd run) = ["acme/file_type_a.csv"; "acme/other.csv"].
Proof.
  cbv zeta.
  apply (proj1 (upload_under_free_key relative_fm 999
                  (mkFile 3 "./in/acme/file_type_a.csv") None None
                  (Str.char "a") "cme/file_type_a.csv"
                  (calm [("./in/acme/file_type_a.csv", 10)] [] ["acme/other.csv"])
                  _ eq_refl eq_refl eq_refl) eq_refl).
Defined.

(** ** What the upload leaves alone *)

Section UploadLocal.

Variable self : FileManager.

Lemma local_emit (e : event) : preserves local (emit e).
Proof. untouched. Qed.

Lemma local_uuid4_hex : preserves local uuid4_hex.
Proof. untouched. Qed.

Lemma local_blob_exists (key : option string) : preserves local (blob_exists key).
Proof. unfold blob_exists. untouched. Qed.

Lemma local_blob_upload (key : option string) (fd : file) :
  preserves local (blob_upload key fd).
Proof. unfold blob_upload. untouched. Qed.

Lemma local_build_tgt_path (file_path : string) :
  preserves local (_build_tgt_path self file_path).
Proof.
  pose proof local_emit.
  unfold _build_tgt_path, _extract_org_path, log. preserved.
Qed.

(** X7.  [upload_to_gcs] touches nothing local: the files, the open
    descriptors and the locks are after the call as they were before it,
    however it ends. *)
Theorem upload_leaves_local_state (depth : nat) (fd : file)
        (object tgt_path : option string) (w : World) :
  files (snd (upload_to_gcs self depth fd object tgt_path w)) = files w
  /\ open_files (snd (upload_to_gcs self depth fd object tgt_path w))
     = open_files w
  /\ flocks (snd (upload_to_gcs self depth fd object tgt_path w)) = flocks w.
Proof.
  assert (H : preserves local (upload_to_gcs self depth fd object tgt_path)).
  { revert object tgt_path. induction depth as [|d IH]; intros object tgt_path.
    - apply preserves_raise.
    - cbn [upload_to_gcs].
      unfold _gcs_file_exists, _add_uuid_to_filename, log_exception, log.
      pose proof local_emit. pose proof local_uuid4_hex.
      pose proof local_blob_exists. pose proof local_blob_upload.
      pose proof local_build_tgt_path.
      preserved. }
  specialize (H w). unfold local in H. injection H as H1 H2 H3. now repeat split.
Qed.

End UploadLocal.

(** ** Candidates that are rejected *)

Section Rejected.

Variables (self : FileManager) (upload : file -> M bool).

(** X8.  A candidate that fails a check of [_handle_event] (no size, size
    zero, a path with the archive root in it, a path without the file type
    marker) is left alone: the upload is not called, and the world changes
    by one line of log. *)
Theorem rejected_candidate_is_left_alone (fd : file) (w : World) :
  validated self fd w = false ->
  exists l fmt args,
    _handle_event_via self upload fd w = (Ret tt, snd (log l fmt args w)).
Proof.
  unfold validated, _handle_event_via, bind, try_except, stat_size.
  destruct (lookup (name fd) (files w)) as [[|size]|].
  - intros _. do 3 eexists. reflexivity.
  - cbn [Nat.eqb negb andb ret].
    destruct (Str.contains (archive_path self) (name fd)).
    + intros _. do 3 eexists. reflexivity.
    + cbn [negb andb]. intros ->. do 3 eexists. reflexivity.
  - intros _. do 3 eexists. reflexivity.
Qed.

End Rejected.

Lemma rejected_candidate_is_left_alone_witness :
  let w := calm [("./in/acme/file_type_a.csv", 0)] [] [] in
  let fd := mkFile 3 "./in/acme/file_type_a.csv" in
  validated relative_fm fd w = false
  /\ exists l fmt args,
       _handle_event_via relative_fm (fun _ => ret true) fd w
       = (Ret tt, snd (log l fmt args w)).
Proof.
  cbv zeta. split; [reflexivity|].
  apply (rejected_candidate_is_left_alone relative_fm (fun _ => ret true)
           (mkFile 3 "./in/acme/file_type_a.csv")
           (calm [("./in/acme/file_type_a.csv", 0)] [] []) eq_refl).
Defined.

(** ** The move to the archive *)

Section Move.

Variable self : FileManager.



(** The ways [shutil.move] ends, with the files each leaves: moved, or
    raised with the files as they were but for what a copy left at the
    destination. *)
Lemma shutil_move_ends (src dst : string) (w : World) :
  (exists n,
      lookup src (files w) = Some n
      /\ shutil_move src dst w
         = (Ret tt,
            set_trace (trace w ++ [Moved src (real_dst w src dst)])
                      (set_files ((real_dst w src dst, n) :: remove src (files w)) w)))
  \/ (exists e w',
         shutil_move src dst w = (Raise e, w')
         /\ trace w' = trace w
         /\ (files w' = files w
             \/ exists k, files w' = (real_dst w src dst, k) :: files w)).
Proof.
  unfold shutil_move.
  destruct (is_dir w dst && path_exists w (real_dst w src dst));
    [right; do 2 eexists; split; [reflexivity|]; split; [reflexivity | now left]|].
  destruct (lookup src (files w)) as [n|];
    [|right; do 2 eexists; split; [reflexivity|]; split; [reflexivity | now left]].
  destruct (rename_fails w src (real_dst w src dst));
    [|left; exists n; split; reflexivity].
  destruct (copy_error w src (real_dst w src dst)) as [[e [k|]]|].
  - right. do 2 eexists. split; [reflexivity|]. split; [reflexivity|].
    right. now exists k.
  - right. do 2 eexists. split; [reflexivity|]. split; [reflexivity | now left].
  - destruct (unlink_error w src) as [e|].
    + right. do 2 eexists. split; [reflexivity|]. split; [reflexivity|].
      right. now exists n.
    + left. exists n. split; reflexivity.
Qed.

Lemma is_dir_build_tgt_path (file_path : string) :
  preserves is_dir (_build_tgt_path self file_path).
Proof.
  assert (H : forall e, preserves is_dir (emit e)) by (intros e w; reflexivity).
  unfold _build_tgt_path, _extract_org_path, log. preserved.
Qed.

(** The ways [archive_file] ends, with the files each leaves. *)
Lemma archive_file_ends (file_path : string) (w : World) :
  (exists tgt n w',
      archive_file self file_path w = (Ret (Some tgt), w')
      /\ lookup file_path (files w) = Some n
      /\ files w' = (real_dst w file_path tgt, n) :: remove file_path (files w))
  \/ (exists r w',
         archive_file self file_path w = (r, w')
         /\ (forall tgt, r <> Ret (Some tgt))
         /\ (files w' = files w \/ exists q k, files w' = (q, k) :: files w)).
Proof.
  pose proof (files_build_tgt_path self file_path w) as Hb.
  pose proof (is_dir_build_tgt_path file_path w) as Hd.
  unfold archive_file, bind.
  destruct (_build_tgt_path self file_path w) as [[[key|]|e] w1];
    cbn [snd] in Hb, Hd; cbn [dirname_of ret raise].
  - unfold makedirs.
    destruct (makedirs_error w1 _);
      [right; do 2 eexists; split; [reflexivity|]; split;
       [discriminate | left; exact Hb]|].
    cbn [emit]. unfold try_except.
    match goal with
    | |- context [shutil_move file_path ?dst ?w2] =>
        destruct (shutil_move_ends file_path dst w2)
          as [(n & Hl & Hrun) | (e & w3 & Hrun & _ & Hf)];
        rewrite Hrun
    end.
    + left. do 3 eexists. split; [reflexivity|].
      cbn in Hl. rewrite Hb in Hl. split; [exact Hl|].
      cbn. unfold real_dst. cbn. rewrite Hb, Hd. reflexivity.
    + right. do 2 eexists. split; [reflexivity|]. split; [discriminate|].
      cbn. cbn in Hf. rewrite Hb in Hf.
      destruct Hf as [Hf | [k Hf]]; [now left | right; eauto].
  - right. do 2 eexists. split; [reflexivity|]. split; [discriminate | left; exact Hb].
  - right. do 2 eexists. split; [reflexivity|]. split; [discriminate | left; exact Hb].
Qed.


(** X10.  A call of [archive_file] on a path that is not a directory that
    does not return a path (it returns [None], or raises) has removed no
    file: every path that held a file still holds one, be it that a copy
    that failed left one at the destination. *)
Theorem failed_archive_removes_nothing (file_path : string) (w : World) :
  is_dir w file_path = false ->
  (forall tgt, fst (archive_file self file_path w) <> Ret (Some tgt)) ->
  forall q,
    lookup q (files w) <> None ->
    lookup q (files (snd (archive_file self file_path w))) <> None.
Proof.
  intros _ Hno q Hq.
  destruct (archive_file_ends file_path w)
    as [(t & n & w2 & H & _) | (r & w2 & H & _ & Hf)]; rewrite H in *.
  - now elim (Hno t).
  - cbn [snd]. destruct Hf as [-> | (p & k & ->)]; [exact Hq|].
    cbn. now destruct (String.eqb q p).
Qed.

End Move.


Lemma failed_archive_removes_nothing_witness :
  let w := cross_device OSError (Some 3)
             (calm [("/in/acme/file_type_a.csv", 10)] [] []) in
  fst (archive_file absolute_fm "/in/acme/file_type_a.csv" w) = Ret None
  /\ files (snd (archive_file absolute_fm "/in/acme/file_type_a.csv" w))
     = [("/arc/acme/file_type_a.csv", 3); ("/in/acme/file_type_a.csv", 10)]
  /\ lookup "/in/acme/file_type_a.csv"
            (files (snd (archive_file absolute_fm "/in/acme/file_type_a.csv" w)))
     <> None.
Proof.
  cbv zeta. split; [reflexivity|]. split; [reflexivity|].
  apply (failed_archive_removes_nothing absolute_fm "/in/acme/file_type_a.csv"
           (cross_device OSError (Some 3)
              (calm [("/in/acme/file_type_a.csv", 10)] [] []))
           eq_refl).
  - intros tgt. discriminate.
  - discriminate.
Defined.

(** A move into a directory that is there: [archive_file] returns the path
    it asked for, and the file is below it. *)
Example archive_into_a_directory :
  let w := with_directory "/arc/acme/file_type_a.csv"
             (calm [("/in/acme/file_type_a.csv", 10)] [] []) in
  fst (archive_file absolute_fm "/in/acme/file_type_a.csv" w)
  = Ret (Some "/arc/acme/file_type_a.csv")
  /\ files (snd (archive_file absolute_fm "/in/acme/file_type_a.csv" w))
     = [("/arc/acme/file_type_a.csv/file_type_a.csv", 10)].
Proof. cbv zeta. split; reflexivity. Qed.

(** ** How a scan ends, and what the loop does with it *)

Section ScanOutcome.

Variable self : FileManager.

Lemma surroundings_log (l : level) (fmt : string) (args : list arg) :
  preserves surroundings (log l fmt args).
Proof. untouched. Qed.

Lemma surroundings_py_open (path : string) :
  preserves surroundings (py_open path).
Proof. unfold py_open. untouched. Qed.

Lemma surroundings_flock_ex_nb (fd : file) :
  preserves surroundings (flock_ex_nb fd).
Proof. unfold flock_ex_nb. untouched. Qed.

Lemma surroundings_stat_size (path : string) :
  preserves surroundings (stat_size path).
Proof. unfold stat_size. untouched. Qed.

Lemma surroundings_scan : preserves surroundings (scan self).
Proof.
  apply preserves_scan;
    auto using surroundings_log, surroundings_py_open,
      surroundings_flock_ex_nb, surroundings_stat_size.
Qed.

Lemma surroundings_handle_event (event_path : string) :
  preserves surroundings (handle_event self event_path).
Proof.
  apply preserves_handle_event;
    auto using surroundings_log, surroundings_py_open,
      surroundings_flock_ex_nb, surroundings_stat_size.
Qed.

Lemma opens_surroundings (w w' : World) (path : string) :
  surroundings w' = surroundings w -> opens w' path = opens w path.
Proof.
  unfold surroundings, opens. intros H. injection H as _ Hf Ho.
  now rewrite Hf, Ho.
Qed.

Lemma existsb_pointwise {A} (f g : A -> bool) (l : list A) :
  (forall x, f x = g x) -> existsb f l = existsb g l.
Proof.
  intros H. induction l as [|x l IH]; [reflexivity|]. cbn. now rewrite H, IH.
Qed.

Lemma candidate_opens_surroundings (w w' : World) :
  surroundings w' = surroundings w ->
  candidate_opens self w' = candidate_opens self w.
Proof.
  intros H. unfold candidate_opens, candidates.
  assert (Hw : walk w' = walk w)
    by (unfold surroundings in H; now injection H as Hw _ _).
  rewrite Hw. apply existsb_pointwise. intros p. now apply opens_surroundings.
Qed.

Lemma handle_event_opens (event_path : string) (w : World) :
  opens w event_path = true ->
  exists w', handle_event self event_path w = (Raise AttributeError, w').
Proof.
  unfold opens. intros H.
  destruct (open_error w event_path) eqn:Ho; [discriminate|].
  destruct (lookup event_path (files w)) eqn:Hl; [|discriminate].
  eapply (file_lock_opened event_path (_handle_event self) w).
  unfold py_open. rewrite Ho, Hl. reflexivity.
Qed.

Lemma handle_event_closed (event_path : string) (w : World) :
  opens w event_path = false ->
  exists e,
    handle_event self event_path w
    = (Ret (Some e), snd (log_deferred event_path e w)).
Proof.
  unfold opens. intros H.
  destruct (open_error w event_path) as [e|] eqn:Ho.
  - exists e. apply file_lock_not_opened. unfold py_open. now rewrite Ho.
  - destruct (lookup event_path (files w)) eqn:Hl; [discriminate|].
    exists FileNotFoundError. apply file_lock_not_opened.
    unfold py_open. now rewrite Ho, Hl.
Qed.

Lemma existsb_filter {A} (f g : A -> bool) (l : list A) :
  existsb f (filter g l) = existsb (fun x => g x && f x) l.
Proof.
  induction l as [|x l IH]; [reflexivity|]. cbn.
  destruct (g x); cbn; now rewrite IH.
Qed.

(** The loop over the file list, from any world around which things are as
    around [w]. *)
Lemma scan_loop (w : World) (l : list string) :
  forall w0,
    surroundings w0 = surroundings w ->
    let body := fun file_path =>
                  if _filter_filename self file_path then
                    e <- handle_event self file_path;;
                    match e with
                    | Some e => log_exception e
                    | None => ret tt
                    end
                  else ret tt in
    exists w',
      for_each l body w0
      = (if existsb (fun p => _filter_filename self p && opens w p) l
         then Raise AttributeError else Ret tt, w').
Proof.
  induction l as [|x l IH]; intros w0 Hs body.
  - cbn. now eexists.
  - cbn [existsb for_each]. unfold bind at 1. unfold body at 1.
    destruct (_filter_filename self x) eqn:Hf; cbn [andb orb ret].
    + destruct (opens w x) eqn:Hx; cbn [orb].
      * rewrite <- (opens_surroundings w w0 x Hs) in Hx.
        destruct (handle_event_opens x w0 Hx) as [w' H].
        unfold bind at 1. rewrite H. now eexists.
      * pose proof (surroundings_handle_event x w0) as Hh.
        rewrite <- (opens_surroundings w w0 x Hs) in Hx.
        destruct (handle_event_closed x w0 Hx) as [e H].
        unfold bind at 1. rewrite H in *. cbn [snd] in Hh.
        pose proof (surroundings_log EXCEPTION "{e}" [AExn e]
                      (snd (log_deferred x e w0))) as Hl.
        unfold log_exception.
        destruct (log EXCEPTION "{e}" [AExn e] (snd (log_deferred x e w0)))
          as [[[]|e'] w1] eqn:E; [|discriminate E].
        cbn [snd] in Hl. apply IH. congruence.
    + now apply IH.
Qed.

(** How a scan ends, and what it leaves as it was. *)
Lemma scan_outcome (w : World) :
  exists w',
    scan self w
    = (if candidate_opens self w then Raise AttributeError else Ret tt, w')
    /\ surroundings w' = surroundings w
    /\ slept w' = slept w.
Proof.
  pose proof (surroundings_scan w) as Hs. pose proof (slept_scan self w) as Hp.
  pose proof (scan_loop w (file_list_of (walk w (src_path self))) w eq_refl) as H.
  cbv zeta in H. unfold candidate_opens, candidates. rewrite existsb_filter.
  destruct H as [w' H].
  assert (E : scan self w
              = (if existsb (fun p => _filter_filename self p && opens w p)
                            (file_list_of (walk w (src_path self)))
                 then Raise AttributeError else Ret tt, w')).
  { unfold scan, _process_all_files, bind at 1, os_walk. exact H. }
  rewrite E in *. exists w'. now repeat split.
Qed.

(** X11.  A scan ends in the [AttributeError] of the lock guard exactly when
    one of its candidates can be opened; when none can, it ends without an
    exception. *)
Theorem scan_fails_iff_a_candidate_opens (w : World) :
  (candidate_opens self w = true -> fst (scan self w) = Raise AttributeError)
  /\ (candidate_opens self w = false -> fst (scan self w) = Ret tt).
Proof.
  destruct (scan_outcome w) as (w' & -> & _).
  split; intros ->; reflexivity.
Qed.

End ScanOutcome.

Lemma scan_fails_iff_a_candidate_opens_witness :
  let w := calm [("./in/acme/file_type_a.csv", 10)]
                [("./in/acme", ["file_type_a.csv"; "gone.csv"])] [] in
  candidates relative_fm w
  = ["./in/acme/file_type_a.csv"; "./in/acme/gone.csv"]
  /\ candidate_opens relative_fm w = true
  /\ fst (scan relative_fm w) = Raise AttributeError.
Proof.
  cbv zeta. split; [reflexivity|]. split; [reflexivity|].
  apply (proj1 (scan_fails_iff_a_candidate_opens relative_fm
                  (calm [("./in/acme/file_type_a.csv", 10)]
                        [("./in/acme", ["file_type_a.csv"; "gone.csv"])] []))).
  reflexivity.
Defined.

Section LoopOutcome.

Variable self : FileManager.

(** One pass of the loop of [start]. *)
Lemma start_pass (passes : nat) (w : World) :
  exists w',
    surroundings w' = surroundings w
    /\ slept w' = (if candidate_opens self w then slept w
                   else slept w ++ [Sleep (sleep_timer_s self)])
    /\ start self (S passes) w = start self passes w'.
Proof.
  destruct (scan_outcome self w) as (w1 & Hrun & Hs & Hp).
  destruct (candidate_opens self w).
  - exists (snd (log_exception AttributeError w1)). split; [|split].
    + unfold log_exception. now rewrite surroundings_log.
    + now rewrite slept_log_exception.
    + cbn [start]. unfold tick, bind. now rewrite Hrun.
  - exists (snd (time_sleep (sleep_timer_s self) w1)). split; [|split].
    + exact Hs.
    + unfold slept in *. cbn. now rewrite sleeps_app, Hp.
    + cbn [start]. unfold tick, bind. now rewrite Hrun.
Qed.

(** X12.  The loop of [start] does not end: after any number of passes, from
    any world, it is still running; no exception leaves it and its
    [InterruptedError] branch is not taken. *)
Theorem start_keeps_running (passes : nat) (w : World) :
  fst (start self passes w) = Ret Running.
Proof.
  revert w. induction passes as [|n IH]; intros w; [reflexivity|].
  destruct (start_pass n w) as (w' & _ & _ & ->). apply IH.
Qed.

(** X13.  When a candidate of the scan can be opened, the loop never sleeps:
    every pass fails on that candidate, and after any number of passes no
    [time.sleep] was called. *)
Theorem loop_spins_on_a_candidate (passes : nat) (w : World) :
  candidate_opens self w = true ->
  slept (snd (start self passes w)) = slept w.
Proof.
  revert w. induction passes as [|n IH]; intros w Hc; [reflexivity|].
  destruct (start_pass n w) as (w' & Hs & Hp & ->). rewrite Hc in Hp.
  rewrite IH; [exact Hp|].
  now rewrite (candidate_opens_surroundings self w w' Hs).
Qed.

(** X14.  When no candidate of the scan can be opened, every pass of the
    loop ends with one sleep of [sleep_timer_s] seconds. *)
Theorem loop_sleeps_when_idle (passes : nat) (w : World) :
  candidate_opens self w = false ->
  slept (snd (start self passes w))
  = slept w ++ repeat (Sleep (sleep_timer_s self)) passes.
Proof.
  revert w. induction passes as [|n IH]; intros w Hc.
  - cbn. now rewrite app_nil_r.
  - destruct (start_pass n w) as (w' & Hs & Hp & ->). rewrite Hc in Hp.
    rewrite IH, Hp; [|now rewrite (candidate_opens_surroundings self w w' Hs)].
    now rewrite <- app_assoc.
Qed.

End LoopOutcome.

Lemma loop_spins_on_a_candidate_witness :
  let w := calm [("./in/acme/file_type_a.csv", 10)]
                [("./in/acme", ["file_type_a.csv"])] [] in
  candidate_opens relative_fm w = true
  /\ slept (snd (start relative_fm 5 w)) = [].
Proof.
  cbv zeta. split; [reflexivity|].
  apply (loop_spins_on_a_candidate relative_fm 5
           (calm [("./in/acme/file_type_a.csv", 10)]
                 [("./in/acme", ["file_type_a.csv"])] []) eq_refl).
Defined.

Lemma loop_sleeps_when_idle_witness :
  let w := calm [("/in/acme/file_type_a.csv", 10)]
                [("/in/acme", ["file_type_a.csv"])] [] in
  candidate_opens absolute_fm w = false
  /\ slept (snd (start absolute_fm 3 w)) = [Sleep 1; Sleep 1; Sleep 1].
Proof.
  cbv zeta. split; [reflexivity|].
  apply (loop_sleeps_when_idle absolute_fm 3
           (calm [("/in/acme/file_type_a.csv", 10)]
                 [("/in/acme", ["file_type_a.csv"])] []) eq_refl).
Defined.

(** ** Stem and extension *)

Section StemAndExtension.

Import Re.

Lemma plus_greedy_shorter (cl : cclass) (k : string -> option string) :
  (forall x r, k x = Some r -> String.length r <= String.length x) ->
  forall s r, plus_greedy cl k s = Some r -> String.length r < String.length s.
Proof.
  intros Hk. induction s as [|c s IH]; intros r; cbn [plus_greedy]; [discriminate|].
  destruct (in_class cl c); [|discriminate].
  destruct (plus_greedy cl k s) as [r'|] eqn:E.
  - intros H. injection H as <-. specialize (IH r' eq_refl). cbn. lia.
  - intros H. apply Hk in H. cbn. lia.
Qed.

Lemma match_here_shorter (p : pattern) :
  forall s r, match_here p s = Some r -> String.length r <= String.length s.
Proof.
  induction p as [|[c|cl|] p IH]; intros s r; cbn [match_here].
  - intros H. injection H as <-. lia.
  - destruct s as [|d s]; [discriminate|].
    destruct (Ascii.eqb d c); [|discriminate].
    intros H. apply IH in H. cbn. lia.
  - intros H. apply (plus_greedy_shorter cl _ IH) in H. lia.
  - destruct (at_eol s); [apply IH | discriminate].
Qed.

(** The matches of a pattern that starts with a literal start with it. *)
Lemma findall_starts_with (c : ascii) (p : pattern) (s : string) :
  forall skip m,
    In m (findall_from (Lit c :: p) skip s) -> exists t, m = String c t.
Proof.
  induction s as [|d s IH]; intros skip m; cbn [findall_from]; [intros []|].
  destruct skip as [|k]; [|apply IH].
  destruct (match_here (Lit c :: p) (String d s)) as [rest|] eqn:E; [|apply IH].
  intros [<-|Hin]; [|now apply IH in Hin].
  cbn [match_here] in E. destruct (Ascii.eqb d c) eqn:Ed; [|discriminate].
  apply Ascii.eqb_eq in Ed. subst d. apply match_here_shorter in E.
  cbn [String.length].
  destruct (S (String.length s) - String.length rest) as [|n] eqn:En; [lia|].
  cbn [Str.take]. now eexists.
Qed.

(** X15.  The extension [_replace_extensions] returns always starts with a
    dot; in particular it is never empty. *)
Theorem extension_starts_with_dot (file_name stem ext : string) :
  _replace_extensions file_name = Some (stem, ext) ->
  Str.startswith ext "." = true.
Proof.
  unfold _replace_extensions.
  destruct (negb (Str.truthy file_name)); [discriminate|].
  destruct (findall Patterns.gz_r file_name) as [|m0 l] eqn:Eg.
  - destruct (Str.endswith file_name ".gz").
    + intros H. injection H as _ <-. reflexivity.
    + destruct (findall Patterns.other_r file_name) as [|m1 l'] eqn:Eo;
        [discriminate|].
      intros H. injection H as _ <-.
      destruct (findall_starts_with Str.dot [Plus WordChar; Eol] file_name 0 m1)
        as [t ->]; [|now destruct t].
      unfold findall, Patterns.other_r in Eo. rewrite Eo. now left.
  - intros H. injection H as _ <-.
    destruct (findall_starts_with Str.dot
                [Plus AnyChar; Lit Str.dot; Lit (Str.char "g"); Lit (Str.char "z")]
                file_name 0 m0) as [t ->]; [|now destruct t].
    unfold findall, Patterns.gz_r in Eg. rewrite Eg. now left.
Qed.

Lemma take_drop (n : nat) (s : string) :
  (Str.take n s ++ Str.drop n s)%string = s.
Proof.
  revert n. induction s as [|c s IH]; intros [|n]; cbn; try reflexivity.
  now rewrite IH.
Qed.

Lemma append_empty (s : string) : (s ++ "")%string = s.
Proof. induction s as [|c s IH]; cbn; [reflexivity | now rewrite IH]. Qed.

Lemma endswith_split (s suf : string) :
  Str.endswith s suf = true ->
  (Str.take (String.length s - String.length suf) s ++ suf)%string = s.
Proof.
  unfold Str.endswith. intros H. apply andb_prop in H as [_ H].
  apply String.eqb_eq in H.
  rewrite <- H at 2. apply take_drop.
Qed.

(** Without a line feed in the name, [$] is the end of the name: a match of
    [other_r] runs to the end. *)
Lemma plus_to_eol (cl : cclass) (s r : string) :
  free_of Str.newline s = true ->
  plus_greedy cl (match_here [Eol]) s = Some r -> r = "".
Proof.
  induction s as [|c s IH]; cbn [plus_greedy free_of]; [discriminate|].
  intros Hfree. apply andb_prop in Hfree as [Hc Hfree].
  destruct (in_class cl c); [|discriminate].
  destruct (plus_greedy cl (match_here [Eol]) s) as [r'|] eqn:E.
  - intros H. injection H as <-. now apply IH.
  - cbn [match_here]. destruct s as [|d [|e s]]; cbn [at_eol].
    + now intros [= <-].
    + cbn [free_of] in Hfree. apply andb_prop in Hfree as [Hd _].
      apply negb_true_iff in Hd. rewrite Hd. discriminate.
    + discriminate.
Qed.

Lemma other_r_to_end (s r : string) :
  free_of Str.newline s = true ->
  match_here Patterns.other_r s = Some r -> r = "".
Proof.
  destruct s as [|c s]; cbn [match_here Patterns.other_r]; [discriminate|].
  cbn [free_of]. intros Hfree. apply andb_prop in Hfree as [_ Hfree].
  destruct (Ascii.eqb c Str.dot); [|discriminate].
  now apply plus_to_eol.
Qed.

Lemma other_r_round_trip (s : string) :
  free_of Str.newline s = true ->
  (sub_from Patterns.other_r "" 0 s
   ++ hd "" (findall_from Patterns.other_r 0 s))%string = s.
Proof.
  induction s as [|c s IH]; intros Hfree; [reflexivity|].
  cbn [sub_from findall_from].
  destruct (match_here Patterns.other_r (String c s)) as [rest|] eqn:E.
  - apply other_r_to_end in E; [|exact Hfree]. subst rest.
    change (String.length "") with 0. rewrite Nat.sub_0_r.
    cbn [hd]. rewrite (take_length (String c s)).
    rewrite sub_skip_all by (cbn; lia). reflexivity.
  - cbn [free_of] in Hfree. apply andb_prop in Hfree as [_ Hfree].
    cbn [String.append]. now rewrite IH.
Qed.

(** X16.  For a name without line feed in which no compound [.gz] suffix is
    found, the stem and the extension that [_replace_extensions] returns
    concatenate to the name. *)
Theorem stem_and_extension_round_trip (file_name stem ext : string) :
  free_of Str.newline file_name = true ->
  findall Patterns.gz_r file_name = [] ->
  _replace_extensions file_name = Some (stem, ext) ->
  (stem ++ ext)%string = file_name.
Proof.
  intros Hfree Hgz. unfold _replace_extensions. rewrite Hgz.
  destruct (negb (Str.truthy file_name)); [discriminate|].
  destruct (Str.endswith file_name ".gz") eqn:Hend.
  - intros H. injection H as <- <-.
    apply (endswith_split file_name ".gz" Hend).
  - pose proof (other_r_round_trip file_name Hfree) as Hrt.
    unfold findall, sub.
    destruct (findall_from Patterns.other_r 0 file_name) as [|m0 l];
      [discriminate|].
    intros H. injection H as <- <-. exact Hrt.
Qed.

End StemAndExtension.

Lemma extension_starts_with_dot_witness :
  _replace_extensions "archive.tar.gz" = Some ("archive", ".tar.gz")
  /\ Str.startswith ".tar.gz" "." = true.
Proof.
  split; [reflexivity|].
  apply (extension_starts_with_dot "archive.tar.gz" "archive" ".tar.gz" eq_refl).
Defined.

Lemma stem_and_extension_round_trip_witness :
  _replace_extensions "v1.2.report.csv" = Some ("v1.2.report", ".csv")
  /\ ("v1.2.report" ++ ".csv")%string = "v1.2.report.csv".
Proof.
  split; [reflexivity|].
  apply (stem_and_extension_round_trip "v1.2.report.csv" "v1.2.report" ".csv"
           eq_refl eq_refl eq_refl).
Defined.

(** ** The file type marker *)

Section Marker.

Lemma lower_append (a b : string) :
  Str.lower (a ++ b) = (Str.lower a ++ Str.lower b)%string.
Proof. induction a as [|c a IH]; cbn; [reflexivity | now rewrite IH]. Qed.

Lemma prefix_append (s b : string) : String.prefix s (s ++ b) = true.
Proof.
  induction s as [|c s IH]; [now destruct b|].
  cbn. destruct (ascii_dec c c); [exact IH | congruence].
Qed.

Lemma contains_prefix (sub s : string) :
  String.prefix sub s = true -> Str.contains sub s = true.
Proof. intros H. destruct s; cbn [Str.contains]; now rewrite H. Qed.

Lemma contains_middle (sub a b : string) :
  Str.contains sub (a ++ sub ++ b) = true.
Proof.
  induction a as [|c a IH].
  - change (("" ++ sub ++ b)%string) with ((sub ++ b)%string).
    apply contains_prefix, prefix_append.
  - change ((String c a ++ sub ++ b)%string) with (String c (a ++ sub ++ b)).
    cbn [Str.contains]. rewrite IH. apply orb_true_r.
Qed.

(** X17.  [input_path] accepts every path that holds the marker
    [file_type], wherever it stands and in whatever letter case. *)
Theorem marker_in_any_case (a m b : string) :
  Str.lower m = "file_type" -> input_path (a ++ m ++ b) = true.
Proof.
  intros Hm. unfold input_path. rewrite !lower_append, Hm.
  now rewrite contains_middle.
Qed.

End Marker.

Lemma marker_in_any_case_witness :
  Str.lower "File_TYPE" = "file_type"
  /\ input_path "/in/acme/File_TYPE_a.csv" = true.
Proof.
  split; [reflexivity|].
  apply (marker_in_any_case "/in/acme/" "File_TYPE" "_a.csv" eq_refl).
Defined.

(** ** The roots of the manager *)

Section Roots.

(** X19.  With an empty archive root every path counts as archived:
    [_filter_filename] rejects every path, and no candidate passes the
    checks of [_handle_event]. *)
Theorem empty_archive_root_rejects_all (src bucket : string)
        (ft : option string) (file_path : string) (fd : file) (w : World) :
  _filter_filename (init src bucket "" ft) file_path = false
  /\ validated (init src bucket "" ft) fd w = false.
Proof.
  assert (H : forall p, Str.contains "" p = true) by (intros p; now destruct p).
  split.
  - unfold _filter_filename. cbn [init archive_path OsPath.join].
    cbn. rewrite H. cbn. now rewrite andb_false_r.
  - unfold validated. cbn [init archive_path OsPath.join]. cbn.
    rewrite H. destruct (lookup (name fd) (files w)); [|reflexivity].
    cbn. now rewrite andb_false_r.
Qed.

End Roots.

(** ** A file that does not open, a file that is locked *)

Section Deferred.

Variable self : FileManager.

(** X20.  When the file cannot be opened, [handle_event] returns the
    exception of [open] as a value (a [FileNotFoundError] for a file that is
    not there) and does nothing but log its three lines: no descriptor, no
    lock, no file and no blob changes, and the action is not called. *)
Theorem unopened_file_is_deferred (event_path : string) (w : World) :
  opens w event_path = false ->
  exists e,
    handle_event self event_path w
    = (Ret (Some e),
       set_trace
         (trace w
          ++ [Log EXCEPTION "{e}" [AExn e];
              Log ERROR "Cannot acquire lock for {file_path}: {e}"
                  [AStr event_path; AExn e];
              Log INFO "File will be processed later" []])
         w)
    /\ (open_error w event_path = None -> e = FileNotFoundError).
Proof.
  unfold opens, handle_event, _file_lock, py_open. intros H.
  destruct (open_error w event_path) as [e|].
  - exists e. split; [|discriminate].
    cbn. now rewrite <- !app_assoc.
  - destruct (lookup event_path (files w)); [discriminate|].
    exists FileNotFoundError. split; [|reflexivity].
    cbn. now rewrite <- !app_assoc.
Qed.

(** X21.  When the file opens but is locked by another process, the action
    is not called: whatever the action, [_file_lock] logs the
    [BlockingIOError] and ends as it does for any opened file, the
    descriptor open and no lock held by it. *)
Theorem locked_file_is_not_processed (file_path : string)
        (func : file -> M unit) (w : World) :
  opens w file_path = true ->
  locked_elsewhere w file_path = true ->
  _file_lock file_path func w
  = (Raise AttributeError,
     set_trace
       (trace w
        ++ [Log EXCEPTION "{e}" [AExn BlockingIOError];
            Log ERROR "Cannot acquire lock for {file_path}: {e}"
                [AStr file_path; AExn BlockingIOError];
            Log INFO "File will be processed later" []])
       (snd (py_open file_path w))).
Proof.
  unfold opens, _file_lock, py_open. intros Ho Hl.
  destruct (open_error w file_path); [discriminate|].
  destruct (lookup file_path (files w)); [|discriminate].
  unfold try_finally, try_except, bind, flock_ex_nb.
  cbn [locked_elsewhere name]. rewrite Hl.
  cbn. now rewrite <- !app_assoc.
Qed.

End Deferred.

Lemma unopened_file_is_deferred_witness :
  let w := calm [] [] [] in
  opens w "./in/acme/gone.csv" = false
  /\ fst (handle_event relative_fm "./in/acme/gone.csv" w)
     = Ret (Some FileNotFoundError).
Proof.
  cbv zeta. split; [reflexivity|].
  destruct (unopened_file_is_deferred relative_fm "./in/acme/gone.csv"
              (calm [] [] []) eq_refl) as [e [H He]].
  rewrite H. cbn [fst]. now rewrite (He eq_refl).
Defined.

Lemma locked_file_is_not_processed_witness :
  let w := locked_by_another (calm [("/in/acme/file_type_a.csv", 10)] [] []) in
  opens w "/in/acme/file_type_a.csv" = true
  /\ fst (_file_lock "/in/acme/file_type_a.csv" (fun _ => raise OSError) w)
     = Raise AttributeError.
Proof.
  cbv zeta. split; [reflexivity|].
  now rewrite (locked_file_is_not_processed "/in/acme/file_type_a.csv"
                 (fun _ => raise OSError)
                 (locked_by_another (calm [("/in/acme/file_type_a.csv", 10)] [] []))
                 eq_refl eq_refl).
Defined.

(** ** A file directly in the source root *)

Section RootLevel.

Variable self : FileManager.

(** X22.  With no fixed category, a relative path that starts with a slash
    (a file directly in the source root, as the scan names it) has no
    category: the key is the path without that slash, and the warning is
    logged. *)
Theorem root_level_file_has_no_category (file_path : string) (w : World) :
  file_type self = None ->
  2 <= List.length (segments self file_path) ->
  hd "" (segments self file_path) = "" ->
  Str.truthy (Str.join "/" (tl (segments self file_path))) = true ->
  _build_tgt_path self file_path w
  = (Ret (Some (Str.join "/" (tl (segments self file_path)))),
     snd (log WARNING "Cannot find the organisation for {file_path}"
              [AStr file_path] w))
  /\ relative self file_path
     = ("/" ++ Str.join "/" (tl (segments self file_path)))%string.
Proof.
  intros Hft Hlen Hhd Htail. split.
  - unfold _build_tgt_path, bind, _extract_org_path. rewrite Hft.
    rewrite (remainder_of_tail self file_path Hlen Htail).
    destruct file_path as [|c s].
    + unfold segments in Hlen. rewrite relative_empty in Hlen. cbn in Hlen. lia.
    + rewrite extract_nonempty.
      destruct (segments self (String c s)) as [|a [|b l]]; cbn in Hlen; try lia.
      cbn [hd] in Hhd. subst a. reflexivity.
  - pose proof (join_split (relative self file_path)) as Hjs.
    fold (segments self file_path) in Hjs.
    destruct (segments self file_path) as [|a [|b l]]; cbn in Hlen; try lia.
    cbn [hd] in Hhd. subst a. now rewrite <- Hjs.
Qed.

End RootLevel.

Lemma root_level_file_has_no_category_witness :
  segments absolute_fm "/in//report.csv" = [""; "report.csv"]
  /\ fst (_build_tgt_path absolute_fm "/in//report.csv" (calm [] [] []))
     = Ret (Some "report.csv").
Proof.
  split; [reflexivity|].
  rewrite (proj1 (root_level_file_has_no_category absolute_fm
                    "/in//report.csv" (calm [] [] []) eq_refl
                    (Nat.le_refl 2) eq_refl eq_refl)).
  reflexivity.
Defined.

(** ** The constructor *)

Section Constructor.

Variables (src target_bucket archive sva_key_path logging_project : string)
          (ft : option string).

(** X18.  As shipped the constructor returns no manager: for every
    argument, in every world, [__init__] raises (the [AttributeError] of
    [get_logger] when the two clients are built), and [main] ends in that
    exception before its checks and before any scan; no file and no blob
    changes. *)
Theorem constructor_never_returns (w : World) :
  exists e w',
    __init__ src target_bucket archive sva_key_path logging_project ft w
    = (Raise e, w')
    /\ (forall passes,
           main passes src target_bucket archive sva_key_path logging_project
                ft w
           = (Raise e, w'))
    /\ files w' = files w
    /\ blobs w' = blobs w
    /\ sleeps (trace w') = sleeps (trace w)
    /\ (storage_client_error w sva_key_path target_bucket = None ->
        logging_client_error w logging_project = None ->
        e = AttributeError).
Proof.
  assert (H : exists e w',
             __init__ src target_bucket archive sva_key_path logging_project
                      ft w
             = (Raise e, w')
             /\ files w' = files w
             /\ blobs w' = blobs w
             /\ sleeps (trace w') = sleeps (trace w)
             /\ (storage_client_error w sva_key_path target_bucket = None ->
                 logging_client_error w logging_project = None ->
                 e = AttributeError)).
  { unfold __init__, get_logger, bind, _build_gcs_client, emit, logging_client.
    destruct (storage_client_error w sva_key_path target_bucket) as [e|].
    - exists e, w. repeat split; try reflexivity. discriminate.
    - cbn [logging_client_error set_trace].
      destruct (logging_client_error w logging_project) as [e|];
        do 2 eexists; (split; [reflexivity|]);
        cbn; rewrite sleeps_app; cbn; rewrite app_nil_r;
        repeat split; try reflexivity; discriminate. }
  destruct H as (e & w' & Hi & Hf & Hb & Hs & He).
  exists e, w'. split; [exact Hi|]. split; [|now repeat split].
  intros passes. unfold main, bind at 1. now rewrite Hi.
Qed.

End Constructor.

Example constructor_raises_attribute_error :
  fst (__init__ "/in" "bucket" "/arc" "/key.json" "project" None
                (calm [("/key.json", 1)] [] []))
  = Raise AttributeError.
Proof. reflexivity. Qed.

(** ** A tick that fails, a tick that does not *)

Section Ticks.

Variable self : FileManager.

(** One pass of [start] is its tick, with the exception of the scan logged
    or the sleep done. *)
Lemma start_one_pass (w : World) :
  (forall e w1,
      scan self w = (Raise e, w1) ->
      start self 1 w = (Ret Running, snd (log_exception e w1)))
  /\ (forall w1,
         scan self w = (Ret tt, w1) ->
         start self 1 w
         = (Ret Running, snd (time_sleep (sleep_timer_s self) w1))).
Proof.
  split.
  - intros e w1 H.
    assert (e = AttributeError) as -> by (symmetry; exact (scan_raises self w e w1 H)).
    cbn [start]. unfold tick, bind. now rewrite H.
  - intros w1 H. cbn [start]. unfold tick, bind. now rewrite H.
Qed.

(** Once a scan has failed, no pass sleeps. *)
Lemma failing_passes_do_not_sleep (passes : nat) :
  forall w,
    candidate_opens self w = true ->
    slept (snd (start self passes w)) = slept w.
Proof.
  induction passes as [|n IH]; intros w Hc; [reflexivity|].
  destruct (start_pass self n w) as (w' & Hs & Hp & ->). rewrite Hc in Hp.
  rewrite IH; [exact Hp|].
  now rewrite (candidate_opens_surroundings self w w' Hs).
Qed.

(** C9.  When an exception escapes the enumeration or the processing of
    the files of a tick, the pass of [start] ends with that exception
    logged and without the sleep, and the next pass starts from there:
    failing ticks follow one another with no sleep between them, however
    many passes the loop makes.  When the scan ends without an exception,
    the pass ends with the sleep of [sleep_timer_s] seconds: the sleep
    comes only after such a tick. *)
Theorem failing_tick_skips_sleep (passes : nat) (w : World) :
  (forall e w1,
      scan self w = (Raise e, w1) ->
      start self 1 w = (Ret Running, snd (log_exception e w1))
      /\ trace (snd (start self 1 w))
         = trace w1 ++ [Log EXCEPTION "{e}" [AExn e]]
      /\ slept (snd (start self 1 w)) = slept w
      /\ start self (S passes) w
         = start self passes (snd (log_exception e w1))
      /\ fst (start self passes w) = Ret Running
      /\ slept (snd (start self passes w)) = slept w)
  /\ (forall w1,
         scan self w = (Ret tt, w1) ->
         start self 1 w
         = (Ret Running, snd (time_sleep (sleep_timer_s self) w1))
         /\ trace (snd (start self 1 w))
            = trace w1 ++ [Sleep (sleep_timer_s self)]
         /\ slept (snd (start self 1 w))
            = slept w ++ [Sleep (sleep_timer_s self)]
         /\ start self (S passes) w
            = start self passes (snd (time_sleep (sleep_timer_s self) w1))).
Proof.
  pose proof (slept_scan self w) as Hs.
  destruct (start_one_pass w) as [Hfail Hclean].
  split.
  - intros e w1 H. rewrite (Hfail e w1 H). rewrite H in Hs. cbn [snd] in Hs.
    split; [reflexivity|]. split; [reflexivity|].
    split; [cbn [snd]; now rewrite (slept_log_exception e w1)|].
    assert (Hc : candidate_opens self w = true).
    { destruct (scan_outcome self w) as (w' & Hrun & _).
      rewrite H in Hrun. now destruct (candidate_opens self w). }
    split; [|split].
    + assert (e = AttributeError) as ->
          by (symmetry; exact (scan_raises self w e w1 H)).
      cbn [start]. unfold tick, bind. now rewrite H.
    + clear. revert w. induction passes as [|n IH]; intros w; [reflexivity|].
      destruct (start_pass self n w) as (w' & _ & _ & ->). apply IH.
    + now apply failing_passes_do_not_sleep.
  - intros w1 H. rewrite (Hclean w1 H). rewrite H in Hs. cbn [snd] in Hs.
    split; [reflexivity|]. split; [reflexivity|]. split.
    + unfold slept in *. cbn. now rewrite sleeps_app, Hs.
    + cbn [start]. unfold tick, bind. now rewrite H.
Qed.

End Ticks.

(** A tick that fails: the one candidate opens, and the lock guard raises;
    and a tick that does not: nothing is a candidate. *)
Lemma failing_tick_skips_sleep_witness :
  let path := "./in/acme/file_type_a.csv" in
  let w := calm [(path, 10)] [("./in/acme", ["file_type_a.csv"])] [] in
  let idle := calm [] [] [] in
  (fst (scan relative_fm w) = Raise AttributeError
   /\ start relative_fm 1 w
      = (Ret Running,
         snd (log_exception AttributeError (snd (scan relative_fm w))))
   /\ slept (snd (start relative_fm 1 w)) = []
   /\ slept (snd (start relative_fm 4 w)) = [])
  /\ (fst (scan relative_fm idle) = Ret tt
      /\ start relative_fm 1 idle
         = (Ret Running,
            snd (time_sleep (sleep_timer_s relative_fm)
                            (snd (scan relative_fm idle))))
      /\ slept (snd (start relative_fm 1 idle))
         = [Sleep (sleep_timer_s relative_fm)]).
Proof.
  cbv zeta. split.
  - pose proof (proj1 (failing_tick_skips_sleep relative_fm 4
                         (calm [("./in/acme/file_type_a.csv", 10)]
                               [("./in/acme", ["file_type_a.csv"])] []))
                      AttributeError _ eq_refl) as H.
    split; [reflexivity|].
    split; [exact (proj1 H)|].
    split; [exact (proj1 (proj2 (proj2 H)))|].
    exact (proj2 (proj2 (proj2 (proj2 (proj2 H))))).
  - pose proof (proj2 (failing_tick_skips_sleep relative_fm 0
                         (calm [] [] []))
                      _ eq_refl) as H.
    split; [reflexivity|].
    split; [exact (proj1 H)|].
    exact (proj1 (proj2 (proj2 H))).
Defined.
